(** * wrava: Strava activities into a DuckDB warehouse

    A shallow embedding of [main_duck.py] and the properties its
    specification states about it.

    The program is a linear pipeline: exchange a refresh token for an
    access token, page through the activities endpoint, project the
    fetched table onto six columns, write it as CSV, create the warehouse
    table and view, and merge every CSV file of the working directory into
    the table.  Everything outside the process (clock, HTTP endpoints, the
    CSV reader of the SQL engine) is collected in a record [env]; everything
    the process changes (log, requests sent, files, the warehouse table) is
    a record [world] threaded through a state-and-exception monad. *)

From Stdlib Require Import ZArith QArith Qround Bool List String Ascii.
From Stdlib Require Import DecimalString Lia.
Import ListNotations.

#[local] Set Warnings "-register-all".
#[local] Open Scope string_scope.
#[local] Open Scope list_scope.
#[local] Open Scope Z_scope.

(* ================================================================= *)
(** ** Python values used by the program *)

(** Exceptions the program can leave through. *)
Inductive exn : Type :=
| RuntimeError                     (* raised by [get_access_token] *)
| ValueError (msg : string)        (* [datetime] with a year out of range *)
| OverflowError                    (* [datetime] with a field beyond a C int *)
| HTTPError (status : Z)           (* [Response.raise_for_status] *)
| KeyError (key : string)          (* subscript of a dict without the key *)
| TypeError                        (* subscript of a value that has none *)
| JSONDecodeError                  (* [Response.json] on a body that is not JSON *)
| CatalogError (name : string)     (* SQL statement on a table that does not exist *)
| InvalidInputError (file : string) (* CSV file the engine cannot stage *)
| ConstraintError (key : Z)        (* primary key written twice *)
| ConversionError (key : Z).       (* staged value that does not fit its column *)

(** Result of running a piece of the program: a value or an exception. *)
Inductive result (A : Type) : Type :=
| Return (a : A)
| Raise (e : exn).
Arguments Return {A} a.
Arguments Raise {A} e.

(** JSON documents as [Response.json] hands them to the program. *)
Inductive json : Type :=
| JNull
| JBool (b : bool)
| JInt (n : Z)
| JFloat (q : Q)
| JStr (s : string)
| JArr (items : list json)
| JObj (fields : list (string * json)).

(** The [str.format] rendering of an [int]. *)
Definition string_of_Z (z : Z) : string := NilZero.string_of_int (Z.to_int z).

Definition string_of_nat (n : nat) : string := string_of_Z (Z.of_nat n).

(** [d[key]] on a Python dict kept as an association list. *)
Fixpoint dict_get {V : Type} (d : list (string * V)) (key : string) : option V :=
  match d with
  | [] => None
  | (k, v) :: rest => if String.eqb k key then Some v else dict_get rest key
  end.

(** [x in xs] for strings. *)
Definition mem_string (x : string) (xs : list string) : bool :=
  existsb (String.eqb x) xs.

(* ================================================================= *)
(** ** [datetime]: the part of the calendar the program touches *)

Definition MINYEAR : Z := 1.
Definition MAXYEAR : Z := 9999.

(** [datetime._is_leap]. *)
Definition is_leap (year : Z) : bool :=
  (year mod 4 =? 0) && (negb (year mod 100 =? 0) || (year mod 400 =? 0)).

(** [datetime._days_before_year]: days before January 1st of [year]. *)
Definition days_before_year (year : Z) : Z :=
  let y := year - 1 in
  y * 365 + y / 4 - y / 100 + y / 400.

Definition days_in_month (year month : Z) : Z :=
  if month =? 2 then (if is_leap year then 29 else 28)
  else if (month =? 4) || (month =? 6) || (month =? 9) || (month =? 11) then 30
  else 31.

(** [datetime._days_before_month]: days of [year] before the first of
    [month]. *)
Definition days_before_month (year month : Z) : Z :=
  fold_right Z.add 0
    (map (fun m => days_in_month year (Z.of_nat m)) (seq 1 (Z.to_nat (month - 1)))).

(** A timezone-aware UTC date at midnight, the only kind of [datetime] that
    [year_to_unix_range] builds. *)
Record datetime : Type := mk_datetime {
  dt_year : Z;
  dt_month : Z;
  dt_day : Z
}.

(** The range of a C [int], to which the constructor converts its
    fields. *)
Definition INT_MIN : Z := - 2 ^ 31.
Definition INT_MAX : Z := 2 ^ 31 - 1.

Definition fits_C_int (z : Z) : bool := (INT_MIN <=? z) && (z <=? INT_MAX).

(** [datetime.datetime(year, month, day, tzinfo=UTC)]: the constructor
    converts its fields to C ints, raising [OverflowError] for one that does
    not fit, then checks them and raises [ValueError] outside their range. *)
Definition datetime_utc (year month day : Z) : result datetime :=
  if negb (fits_C_int year && fits_C_int month && fits_C_int day) then
    Raise OverflowError
  else if negb ((MINYEAR <=? year) && (year <=? MAXYEAR)) then
    Raise (ValueError ("year " ++ string_of_Z year ++ " is out of range")%string)
  else if negb ((1 <=? month) && (month <=? 12)) then
    Raise (ValueError "month must be in 1..12")
  else if negb ((1 <=? day) && (day <=? days_in_month year month)) then
    Raise (ValueError "day is out of range for month")
  else Return (mk_datetime year month day).

(** [date.toordinal]: January 1st of year 1 is day 1. *)
Definition toordinal (d : datetime) : Z :=
  days_before_year (dt_year d) + days_before_month (dt_year d) (dt_month d) + dt_day d.

(** The ordinal of [_EPOCH = datetime(1970, 1, 1, tzinfo=utc)]. *)
Definition EPOCH_ordinal : Z := toordinal (mk_datetime 1970 1 1).

(** [a / b] rounded to the nearest integer, ties to the even one, for
    [0 <= a] and [0 < b]. *)
Definition round_half_even (a b : Z) : Z :=
  let q := a / b in
  let r := a mod b in
  if 2 * r <? b then q
  else if b <? 2 * r then q + 1
  else if Z.even q then q else q + 1.

(** Numerator and denominator of [a / (d * 2^e)]. *)
Definition scale_num (a e : Z) : Z := if 0 <=? e then a else a * 2 ^ (- e).
Definition scale_den (d e : Z) : Z := if 0 <=? e then d * 2 ^ e else d.

(** [int(n / d)] for Python ints [n] and [d > 0].  The true division of
    two ints gives the double nearest to the quotient: a significand [m] of
    53 bits, rounded half to even, times [2^e]; [int] then truncates toward
    zero.  (Quotients beyond the range of normal doubles do not arise from
    a clock.) *)
Definition int_of_true_divide (n d : Z) : Z :=
  let a := Z.abs n in
  if a =? 0 then 0
  else
    let e0 := Z.log2 a - Z.log2 d - 52 in
    let e := if 2 ^ 52 <=? scale_num a e0 / scale_den d e0 then e0 else e0 - 1 in
    let m := round_half_even (scale_num a e) (scale_den d e) in
    Z.sgn n * (if 0 <=? e then m * 2 ^ e else m / 2 ^ (- e)).

(** [int(x.timestamp())] for an aware datetime [x] that lies [us]
    microseconds after the epoch: [timestamp] divides the microseconds of
    [x - _EPOCH] by [10**6]. *)
Definition int_timestamp (us : Z) : Z := int_of_true_divide us 1000000.

(** [int(d.timestamp())] for an aware datetime at midnight. *)
Definition timestamp (d : datetime) : Z :=
  int_timestamp ((toordinal d - EPOCH_ordinal) * 86400 * 1000000).

(** [year_to_unix_range]. *)
Definition year_to_unix_range (year : Z) : result (Z * Z) :=
  match datetime_utc year 1 1 with
  | Raise e => Raise e
  | Return start =>
      match datetime_utc (year + 1) 1 1 with
      | Raise e => Raise e
      | Return end_ => Return (timestamp start, timestamp end_)
      end
  end.

(** [datetime.timedelta(days=7)], in microseconds. *)
Definition seven_days_us : Z := 7 * 86400 * 1000000.

(** The window computed at the top of [fetch_activities] (lines 71-77):
    the year's range when a year is passed, the trailing seven days
    otherwise.  The clock is read in microseconds since the epoch, the
    resolution of [datetime.now]; it is a reading of [datetime.now], at
    least seven days after [datetime.min], so that the subtraction stays in
    the calendar. *)
Definition fetch_window (now_us : Z) (year : option Z) : result (Z * Z) :=
  match year with
  | Some y => year_to_unix_range y
  | None =>
      let after := int_timestamp (now_us - seven_days_us) in
      let before := int_timestamp now_us in
      Return (after, before)
  end.

(* ================================================================= *)
(** ** Tables: activity records, data frames, CSV files, warehouse rows *)

(** One activity as the API returns it: a JSON object, kept in key order. *)
Definition record : Type := list (string * json).

(** A cell of a data frame; [None] is the NaN pandas puts where a record
    has no value for a column. *)
Definition cell : Type := option json.

(** A pandas [DataFrame]: a [RangeIndex] of [index] rows and labelled
    columns, in order. *)
Record DataFrame : Type := mk_DataFrame {
  index : nat;
  data : list (string * list cell)
}.

(** [df.columns]. *)
Definition columns (df : DataFrame) : list string := map fst (data df).

(** [len(df)]. *)
Definition len (df : DataFrame) : nat := index df.

(** Column labels of [pd.DataFrame(records)]: the keys of the records in
    order of first appearance. *)
Fixpoint add_labels (seen keys : list string) : list string :=
  match keys with
  | [] => seen
  | k :: ks => add_labels (if mem_string k seen then seen else seen ++ [k]) ks
  end.

Definition labels_of (records : list record) : list string :=
  fold_left (fun seen r => add_labels seen (map fst r)) records [].

(** [pd.DataFrame(records)] for a list of dicts. *)
Definition DataFrame_of_records (records : list record) : DataFrame :=
  {| index := List.length records;
     data := map (fun c => (c, map (fun r => dict_get r c) records))
                 (labels_of records) |}.

(** The columns of [df] that carry the label [c]. *)
Definition pick (df : DataFrame) (c : string) : list (string * list cell) :=
  filter (fun col => String.eqb (fst col) c) (data df).

(** [df[labels]]: the columns carrying each label of the list, in the
    order of the list; [KeyError] when a label is not in [df.columns]. *)
Definition getitem (df : DataFrame) (labels : list string) : result DataFrame :=
  match find (fun c => negb (mem_string c (columns df))) labels with
  | Some missing => Raise (KeyError missing)
  | None => Return {| index := index df; data := flat_map (pick df) labels |}
  end.

(** A CSV file: the header fields and one line of cells per row. *)
Record csv : Type := mk_csv {
  header : list string;
  lines : list (list cell)
}.

(** [df.to_csv(path, index=False)]: the content written. *)
Definition csv_of (df : DataFrame) : csv :=
  {| header := columns df;
     lines := map (fun i => map (fun col => nth i (snd col) None) (data df))
                  (seq 0 (index df)) |}.

(** A row of [activities_raw] (lines 107-114).  Every column but the
    primary key is nullable; [distance] is a double, held as the rational
    it denotes. *)
Record row : Type := mk_row {
  id : Z;
  name : option string;
  start_date_local : option string;
  type : option string;
  distance : option Q;
  moving_time : option Z
}.

(** The base table: its rows in storage order. *)
Definition table : Type := list row.

(* ================================================================= *)
(** ** The outside of the process and the state it changes *)

Inductive level : Type := INFO | ERROR.

(** The form the token exchanger posts. *)
Record token_request : Type := mk_token_request {
  client_id : option string;
  client_secret : option string;
  refresh_token : option string;
  grant_type : string
}.

(** What [requests.post] hands back: status, body text, and the body as
    [Response.json] decodes it ([None] when it is not JSON). *)
Record token_response : Type := mk_token_response {
  status_code : Z;
  text : string;
  decoded : option json
}.

(** The query of one page request, with its bearer token. *)
Record activities_request : Type := mk_activities_request {
  bearer : json;
  after : Z;
  before : Z;
  page : Z;
  per_page : Z
}.

(** The answer of the activities endpoint: a status and, decoded, a JSON
    array of activity objects. *)
Record activities_response : Type := mk_activities_response {
  a_status_code : Z;
  a_json : list record
}.

Inductive http_request : Type :=
| POST_token (r : token_request)
| GET_activities (r : activities_request).

(** [argparse.Namespace] of [parse_args]: [year] is [None] when the flag
    is absent. *)
Record Namespace : Type := mk_Namespace {
  year : option Z
}.

(** Everything the run reads from outside. *)
Record env : Type := mk_env {
  argv : Namespace;
  STRAVA_CLIENT_ID : option string;
  STRAVA_CLIENT_SECRET : option string;
  STRAVA_REFRESH_TOKEN : option string;
  clock_us : Z;
  token_endpoint : token_request -> token_response;
  activities_endpoint : activities_request -> activities_response;
  read_csv_auto : csv -> option (list row)
}.

(** Everything the run changes. *)
Record world : Type := mk_world {
  log : list (level * string);
  sent : list http_request;
  cwd : list (string * csv);
  activities_raw : option table
}.

(** State and exceptions; [None] is a loop that ran out of fuel. *)
Definition M (A : Type) : Type := world -> option (result A * world).

Definition ret {A : Type} (a : A) : M A := fun w => Some (Return a, w).

Definition raise {A : Type} (e : exn) : M A := fun w => Some (Raise e, w).

Definition bind {A B : Type} (m : M A) (k : A -> M B) : M B :=
  fun w =>
    match m w with
    | None => None
    | Some (Raise e, w') => Some (Raise e, w')
    | Some (Return a, w') => k a w'
    end.

Notation "x <- m ;; k" := (bind m (fun x => k))
  (at level 61, m at next level, right associativity).
Notation "m ;; k" := (bind m (fun _ => k))
  (at level 61, right associativity).

Definition lift {A : Type} (r : result A) : M A := fun w => Some (r, w).

Definition LOGGER (l : level) (message : string) : M unit :=
  fun w => Some (Return tt,
                 {| log := log w ++ [(l, message)]; sent := sent w;
                    cwd := cwd w; activities_raw := activities_raw w |}).

Definition record_request (r : http_request) : M unit :=
  fun w => Some (Return tt,
                 {| log := log w; sent := sent w ++ [r];
                    cwd := cwd w; activities_raw := activities_raw w |}).

Definition HTTP_STATUS_OK : Z := 200.

(** [parse_args]. *)
Definition parse_args (e : env) : M Namespace := ret (argv e).

(** [requests.post(url, data=..., timeout=10)]. *)
Definition requests_post (e : env) (r : token_request) : M token_response :=
  record_request (POST_token r) ;; ret (token_endpoint e r).

(** [requests.get(url, headers=..., params=..., timeout=10)]. *)
Definition requests_get (e : env) (r : activities_request) : M activities_response :=
  record_request (GET_activities r) ;; ret (activities_endpoint e r).

(** [response.json()]. *)
Definition response_json (r : token_response) : M json :=
  match decoded r with
  | Some j => ret j
  | None => raise JSONDecodeError
  end.

(** [value[key]] for a string key. *)
Definition subscript (value : json) (key : string) : M json :=
  match value with
  | JObj fields =>
      match dict_get fields key with
      | Some v => ret v
      | None => raise (KeyError key)
      end
  | _ => raise TypeError
  end.

(** [get_access_token] (lines 39-58). *)
Definition get_access_token (e : env) : M json :=
  LOGGER INFO "Fetching new access token from Strava." ;;
  response <- requests_post e
    {| client_id := STRAVA_CLIENT_ID e;
       client_secret := STRAVA_CLIENT_SECRET e;
       refresh_token := STRAVA_REFRESH_TOKEN e;
       grant_type := "refresh_token" |} ;;
  if negb (status_code response =? HTTP_STATUS_OK) then
    let error_message := ("Error fetching access token: " ++ text response)%string in
    LOGGER ERROR error_message ;;
    raise RuntimeError
  else
    response_data <- response_json response ;;
    subscript response_data "access_token".

(** [response.raise_for_status()]. *)
Definition raise_for_status (r : activities_response) : M unit :=
  if (400 <=? a_status_code r) && (a_status_code r <? 600)
  then raise (HTTPError (a_status_code r))
  else ret tt.

(** The [while True] loop of [fetch_activities] (lines 82-96); one unit of
    fuel per page request. *)
Fixpoint fetch_pages (fuel : nat) (e : env) (access_token : json)
    (after_ before_ : Z) (page_ per_page_ : Z) (all_activities : list record)
    : M (list record) :=
  match fuel with
  | O => fun _ => None
  | S fuel' =>
      let params := {| bearer := access_token; after := after_; before := before_;
                       page := page_; per_page := per_page_ |} in
      response <- requests_get e params ;;
      raise_for_status response ;;
      let activities := a_json response in
      match activities with
      | [] => ret all_activities
      | _ :: _ =>
          fetch_pages fuel' e access_token after_ before_ (page_ + 1) per_page_
                      (all_activities ++ activities)
      end
  end.

(** [fetch_activities] (lines 68-98). *)
Definition fetch_activities (fuel : nat) (e : env) (access_token : json)
    (year_ : option Z) : M DataFrame :=
  window <- lift (fetch_window (clock_us e) year_) ;;
  let '(after_, before_) := window in
  all_activities <- fetch_pages fuel e access_token after_ before_ 1 200 [] ;;
  ret (DataFrame_of_records all_activities).

(** [select_columns] (lines 155-165). *)
Definition strava_columns_used : list string :=
  ["id"; "name"; "start_date_local"; "type"; "distance"; "moving_time"].

Definition select_columns (df : DataFrame) : result DataFrame :=
  getitem df (filter (fun c => mem_string c (columns df)) strava_columns_used).

(* ================================================================= *)
(** ** The SQL the program sends *)

(** *** Regular expressions

    The view uses one pattern, anchored at both ends: group 1 (any run of
    characters, greedy), [\s+], the text [with], [\s+], group 2 (a run of at
    least one character, greedy).  It is kept as the list of its pieces and
    matched the way the engine's matcher assigns groups: leftmost, every
    repetition greedy, giving back one character at a time.  Characters are
    bytes; the pattern's literals and classes are ASCII, so groups fall on
    the same boundaries as with code points. *)

Inductive charclass : Type :=
| Dot        (* [.]: any character but a line feed *)
| Space.     (* [\s]: tab, line feed, form feed, carriage return, space *)

Inductive token : Type :=
| Bol                      (* [^] *)
| Eol                      (* [$] *)
| Lit (s : string)         (* literal text *)
| Star (c : charclass)     (* [c*] *)
| Plus (c : charclass)     (* [c+] *)
| Open (g : nat)           (* [(] of group [g] *)
| Close (g : nat).         (* [)] of group [g] *)

Definition regex : Type := list token.

(** The pattern of lines 123 and 126, piece by piece. *)
Definition name_pattern : regex :=
  [Bol; Open 1; Star Dot; Close 1; Plus Space; Lit "with"; Plus Space;
   Open 2; Plus Dot; Close 2; Eol].

Definition in_class (c : charclass) (a : ascii) : bool :=
  let n := nat_of_ascii a in
  match c with
  | Dot => negb (Nat.eqb n 10)
  | Space => Nat.eqb n 9 || Nat.eqb n 10 || Nat.eqb n 12 || Nat.eqb n 13 || Nat.eqb n 32
  end.

(** [s] without its prefix [l], when it has it. *)
Fixpoint strip_prefix (l s : string) : option string :=
  match l, s with
  | EmptyString, _ => Some s
  | String a l', String b s' => if Ascii.eqb a b then strip_prefix l' s' else None
  | String _ _, EmptyString => None
  end.

Fixpoint assoc_nat {V : Type} (k : nat) (l : list (nat * V)) : option V :=
  match l with
  | [] => None
  | (k', v) :: rest => if Nat.eqb k k' then Some v else assoc_nat k rest
  end.

(** Group number to the offsets where the group starts and stops. *)
Definition captures : Type := list (nat * (nat * nat)).

(** Greedy repetition of a class, then the continuation [k]: take the
    character when it is in the class and go on; when the rest fails that
    way, stop here instead. *)
Fixpoint greedy (c : charclass) (k : nat -> string -> option captures)
    (pos : nat) (s : string) : option captures :=
  match s with
  | String a s' =>
      if in_class c a then
        match greedy c k (S pos) s' with
        | Some caps => Some caps
        | None => k pos s
        end
      else k pos s
  | EmptyString => k pos s
  end.

(** Match the pieces [p] against [s], the text from offset [pos] on. *)
Fixpoint match_here (p : regex) (opened : list (nat * nat)) (caps : captures)
    (pos : nat) (s : string) : option captures :=
  match p with
  | [] => Some caps
  | Bol :: p' => if Nat.eqb pos 0 then match_here p' opened caps pos s else None
  | Eol :: p' =>
      match s with
      | EmptyString => match_here p' opened caps pos s
      | String _ _ => None
      end
  | Lit l :: p' =>
      match strip_prefix l s with
      | Some s' => match_here p' opened caps (pos + String.length l) s'
      | None => None
      end
  | Star c :: p' => greedy c (match_here p' opened caps) pos s
  | Plus c :: p' =>
      match s with
      | String a s' =>
          if in_class c a then greedy c (match_here p' opened caps) (S pos) s'
          else None
      | EmptyString => None
      end
  | Open g :: p' => match_here p' ((g, pos) :: opened) caps pos s
  | Close g :: p' =>
      match assoc_nat g opened with
      | Some start => match_here p' opened ((g, (start, pos)) :: caps) pos s
      | None => None
      end
  end.

(** A pattern that begins with [^] can only match at offset 0. *)
Definition regex_search (p : regex) (s : string) : option captures :=
  match_here p [] [] 0%nat s.

Definition regexp_matches (s : string) (p : regex) : bool :=
  match regex_search p s with Some _ => true | None => false end.

(** The engine's [regexp_extract(string, pattern, group)] on a non-null
    string: the text of the group when the pattern matches, the empty
    string when it does not. *)
Definition regexp_extract_str (s : string) (p : regex) (g : nat) : string :=
  match regex_search p s with
  | Some caps =>
      match assoc_nat g caps with
      | Some (start, stop) => substring start (stop - start) s
      | None => EmptyString
      end
  | None => EmptyString
  end.

(** [regexp_extract] as a SQL function: NULL on a NULL string. *)
Definition regexp_extract (s : option string) (p : regex) (g : nat) : option string :=
  option_map (fun s' => regexp_extract_str s' p g) s.

(** *** Operators of the view *)

(** [x = 'lit']: NULL when [x] is NULL. *)
Definition sql_eq (x : option string) (lit : string) : option bool :=
  option_map (fun s => String.eqb s lit) x.

(** [x in ('a', 'b', ...)]. *)
Definition sql_in (x : option string) (lits : list string) : option bool :=
  option_map (fun s => mem_string s lits) x.

(** [case when cond then v end]: [v] when the condition is true, NULL
    when it is false or NULL. *)
Definition case_when {A : Type} (cond : option bool) (v : option A) : option A :=
  match cond with
  | Some true => v
  | _ => None
  end.

(** [//] is the engine's integer-division operator.  On two integers it
    truncates the quotient.  On a double and an integer the integer is cast
    to double, and engines differ on what follows: the quotient is cut to a
    whole number, or it is left as the plain quotient of the two doubles.
    The view is modelled for both. *)
Inductive double_division : Type :=
| CutToWhole
| PlainQuotient.

(** [x // d] on a double. *)
Definition double_intdiv (dd : double_division) (x : Q) (d : Z) : Q :=
  match dd with
  | CutToWhole => inject_Z (Qfloor (x / inject_Z d))
  | PlainQuotient => (x / inject_Z d)%Q
  end.

(** [x // d] on an integer: the quotient, truncated. *)
Definition int_intdiv (x d : Z) : Z := Z.quot x d.

(** [round(x, digits)]: to the nearest multiple of [10^-digits], halves
    away from zero; the value is given in lowest terms. *)
Definition sql_round (x : Q) (digits : Z) : Q :=
  let scale := inject_Z (10 ^ digits) in
  let scaled := (x * scale)%Q in
  let nearest := if Qle_bool 0 scaled then Qfloor (scaled + (1 # 2))
                 else Qceiling (scaled - (1 # 2)) in
  Qred (inject_Z nearest / scale).

(** A row of the view [activities] (lines 117-130).  The two converted
    columns hold the number the engine returns. *)
Record view_row : Type := mk_view_row {
  v_id : Z;
  v_name : option string;
  start_date : option string;
  v_type : option string;
  workout_type : option string;
  coach : option string;
  distance_km : option Q;
  moving_time_min : option Q
}.

Definition activities_row (dd : double_division) (r : row) : view_row :=
  {| v_id := id r;
     v_name := name r;
     start_date := start_date_local r;
     v_type := type r;
     workout_type :=
       case_when (sql_eq (type r) "Workout")
                 (regexp_extract (name r) name_pattern 1);
     coach :=
       case_when (sql_in (type r) ["Workout"; "VirtualRide"])
                 (regexp_extract (name r) name_pattern 2);
     distance_km :=
       option_map (fun d => sql_round (double_intdiv dd d 1000) 1) (distance r);
     moving_time_min :=
       option_map (fun t => sql_round (inject_Z (int_intdiv t 60)) 1) (moving_time r) |}.

(** [select * from activities]. *)
Definition activities (dd : double_division) (raw : table) : list view_row :=
  map (activities_row dd) raw.

(** *** The merge statement (lines 143-149)

    [merge into activities_raw using staging on (staging.id = activities_raw.id)
     when matched then update when not matched then insert].

    The statement joins the staged rows with the table as it stands before
    the statement.  A table row with a staged partner takes the partner's
    columns; a staged row without a partner is appended.  The engine
    refuses the whole statement, and the table stays as it was, when a
    staged value does not fit the column it goes to ([id bigint],
    [moving_time int]) and when two staged rows carry one id: one table row
    would be updated twice, or one primary key inserted twice. *)

(** What [id bigint] and [moving_time int] can hold. *)
Definition fits_bigint (z : Z) : bool := (- 2 ^ 63 <=? z) && (z <? 2 ^ 63).
Definition fits_int (z : Z) : bool := (- 2 ^ 31 <=? z) && (z <? 2 ^ 31).

Definition fits_columns (r : row) : bool :=
  fits_bigint (id r)
  && match moving_time r with
     | Some t => fits_int t
     | None => true
     end.

Definition has_key (k : Z) (t : list row) : bool :=
  existsb (fun r => id r =? k) t.

(** The staged row joined to the table row [t]. *)
Definition partner (staging : list row) (t : row) : option row :=
  find (fun s => id s =? id t) staging.

(** [when matched then update]: every column from the staged row. *)
Definition update_matched (staging : list row) (t : row) : row :=
  match partner staging t with
  | Some s => s
  | None => t
  end.

(** [when not matched then insert]: the staged rows without a partner. *)
Definition not_matched (target : table) (staging : list row) : list row :=
  filter (fun s => negb (has_key (id s) target)) staging.

(** The first key that occurs twice, if any. *)
Fixpoint duplicate_key (keys : list Z) : option Z :=
  match keys with
  | [] => None
  | k :: rest => if existsb (Z.eqb k) rest then Some k else duplicate_key rest
  end.

Definition merge_into (target : table) (staging : list row) : result table :=
  match find (fun s => negb (fits_columns s)) staging with
  | Some s => Raise (ConversionError (id s))
  | None =>
      match duplicate_key (map id staging) with
      | Some k => Raise (ConstraintError k)
      | None =>
          Return (map (update_matched staging) target ++ not_matched target staging)
      end
  end.

(* ================================================================= *)
(** ** Warehouse set-up, loader and entry point *)

(** [setup_duckdb] (lines 101-132): [create table if not exists]; the view
    is replaced on every run and holds no state of its own. *)
Definition setup_duckdb : M unit :=
  fun w => Some (Return tt,
                 {| log := log w; sent := sent w; cwd := cwd w;
                    activities_raw := match activities_raw w with
                                      | Some t => Some t
                                      | None => Some []
                                      end |}).

Definition ends_with (suffix s : string) : bool :=
  let n := String.length s in
  let m := String.length suffix in
  Nat.leb m n && String.eqb (substring (n - m) m s) suffix.

(** [Path().glob("*.csv")]: the CSV files of the working directory, in
    directory order. *)
Definition glob_csv (w : world) : list (string * csv) :=
  filter (fun f => ends_with ".csv" (fst f)) (cwd w).

(** [create temp table activities_staging as select * from read_csv_auto(f)]. *)
Definition stage (e : env) (csv_file : string * csv) : M (list row) :=
  match read_csv_auto e (snd csv_file) with
  | Some staged => ret staged
  | None => raise (InvalidInputError (fst csv_file))
  end.

(** The merge statement run against the table of the world. *)
Definition execute_merge (staging : list row) : M unit :=
  fun w =>
    match activities_raw w with
    | None => Some (Raise (CatalogError "activities_raw"), w)
    | Some target =>
        match merge_into target staging with
        | Raise ex => Some (Raise ex, w)
        | Return merged =>
            Some (Return tt,
                  {| log := log w; sent := sent w; cwd := cwd w;
                     activities_raw := Some merged |})
        end
    end.

(** The body of the loop of [upsert_duckdb_activities], over the files
    the glob returned. *)
Fixpoint upsert_files (e : env) (files : list (string * csv)) : M unit :=
  match files with
  | [] => ret tt
  | csv_file :: rest =>
      staging <- stage e csv_file ;;
      execute_merge staging ;;
      LOGGER INFO ("Uploaded " ++ fst csv_file ++ " to DuckDB.")%string ;;
      upsert_files e rest
  end.

(** [upsert_duckdb_activities] (lines 135-152). *)
Definition upsert_duckdb_activities (e : env) : M unit :=
  fun w => upsert_files e (glob_csv w) w.

(** [df.to_csv(path, index=False)]: create or overwrite the file. *)
Fixpoint write_file (path : string) (content : csv) (files : list (string * csv))
    : list (string * csv) :=
  match files with
  | [] => [(path, content)]
  | (p, c) :: rest =>
      if String.eqb p path then (path, content) :: rest
      else (p, c) :: write_file path content rest
  end.

Definition to_csv (df : DataFrame) (path : string) : M unit :=
  fun w => Some (Return tt,
                 {| log := log w; sent := sent w;
                    cwd := write_file path (csv_of df) (cwd w);
                    activities_raw := activities_raw w |}).

(** Truth value of [args.year]: [None] and [0] are false. *)
Definition truthy (y : option Z) : bool :=
  match y with
  | None => false
  | Some n => negb (n =? 0)
  end.

(** [str] of [args.year]. *)
Definition format_year (y : option Z) : string :=
  match y with
  | None => "None"
  | Some n => string_of_Z n
  end.

(** The two branches of [main] (lines 171-184): log, authenticate, fetch,
    project, log, write. *)
Definition download_year (fuel : nat) (e : env) (args : Namespace) : M unit :=
  LOGGER INFO ("Downloading activities for year: " ++ format_year (year args))%string ;;
  access_token <- get_access_token e ;;
  activities_df <- fetch_activities fuel e access_token (year args) ;;
  df_clean <- lift (select_columns activities_df) ;;
  LOGGER INFO ("Downloaded " ++ string_of_nat (len df_clean) ++ " activities")%string ;;
  to_csv df_clean ("activities_" ++ format_year (year args) ++ ".csv")%string.

Definition download_last_7_days (fuel : nat) (e : env) : M unit :=
  LOGGER INFO "No year specified, download activities from last 7 days only." ;;
  access_token <- get_access_token e ;;
  activities_df <- fetch_activities fuel e access_token None ;;
  df_clean <- lift (select_columns activities_df) ;;
  LOGGER INFO ("Downloaded " ++ string_of_nat (len df_clean) ++ " activities")%string ;;
  to_csv df_clean "activities_last_7_days.csv".

(** [main] (lines 168-187). *)
Definition main (fuel : nat) (e : env) : M unit :=
  args <- parse_args e ;;
  (if truthy (year args)
   then download_year fuel e args
   else download_last_7_days fuel e) ;;
  setup_duckdb ;;
  upsert_duckdb_activities e.

(* ================================================================= *)
(** ** Reference notions the properties are stated with *)

(** *** Calendar: January 1st of a year as a Unix time, by counting days *)

Definition days_in_year (y : Z) : Z := if is_leap y then 366 else 365.

(** Days of the [n] years from [y] on. *)
Fixpoint days_of_years (y : Z) (n : nat) : Z :=
  match n with
  | O => 0
  | S n' => days_in_year y + days_of_years (y + 1) n'
  end.

(** Seconds from 1970-01-01 00:00 UTC to January 1st 00:00 UTC of year
    [Y] (negative before 1970), in the proleptic Gregorian calendar. *)
Definition jan1_utc (Y : Z) : Z :=
  86400 * (if 1970 <=? Y
           then days_of_years 1970 (Z.to_nat (Y - 1970))
           else - days_of_years Y (Z.to_nat (1970 - Y))).

(** *** What it means for a name to match the pattern of the view *)

(** Every character of [s] is in the class. *)
Fixpoint all_in (c : charclass) (s : string) : bool :=
  match s with
  | EmptyString => true
  | String a s' => in_class c a && all_in c s'
  end.

(** [s] reads [g1], white space, "with", white space, [g2], where [g1]
    and [g2] hold no line feed and [g2] is not empty. *)
Definition name_matches_as (s g1 g2 : string) : Prop :=
  exists sp1 sp2,
    s = (g1 ++ sp1 ++ "with" ++ sp2 ++ g2)%string
    /\ all_in Dot g1 = true
    /\ all_in Space sp1 = true /\ sp1 <> EmptyString
    /\ all_in Space sp2 = true /\ sp2 <> EmptyString
    /\ all_in Dot g2 = true /\ g2 <> EmptyString.

Definition name_matches (s : string) : Prop :=
  exists g1 g2, name_matches_as s g1 g2.

(** *** A source API that holds a fixed list of records *)

(** Page [page] of size [per_page] of the records, 1-indexed: full pages,
    then one partial page if any records remain, then empty pages. *)
Definition serve_page (records : list record) (r : activities_request)
    : activities_response :=
  {| a_status_code := 200;
     a_json := firstn (Z.to_nat (per_page r))
                      (skipn (Z.to_nat ((page r - 1) * per_page r)) records) |}.

Definition ceil_div (a b : nat) : nat := ((a + b - 1) / b)%nat.

(** The page requests among the requests sent. *)
Definition page_requests (reqs : list http_request) : list activities_request :=
  flat_map (fun q => match q with
                     | GET_activities r => [r]
                     | POST_token _ => []
                     end) reqs.

(** The number of page requests the specification gives for [T] records. *)
Definition specified_page_requests (T : nat) : nat :=
  if Nat.eqb (T mod 200) 0 then (ceil_div T 200 + 1)%nat else ceil_div T 200.

(** The requests for pages [first], [first + 1], ..., [count] of them. *)
Definition requests_for (access_token : json) (after_ before_ : Z)
    (first count : nat) : list http_request :=
  map (fun p => GET_activities
                  {| bearer := access_token; after := after_; before := before_;
                     page := Z.of_nat p; per_page := 200 |})
      (seq first count).

(** *** Worlds that differ in one component *)

Definition with_sent (w : world) (more : list http_request) : world :=
  {| log := log w; sent := sent w ++ more; cwd := cwd w;
     activities_raw := activities_raw w |}.

Definition with_log (w : world) (more : list (level * string)) : world :=
  {| log := log w ++ more; sent := sent w; cwd := cwd w;
     activities_raw := activities_raw w |}.

Definition with_argv (e : env) (args : Namespace) : env :=
  {| argv := args;
     STRAVA_CLIENT_ID := STRAVA_CLIENT_ID e;
     STRAVA_CLIENT_SECRET := STRAVA_CLIENT_SECRET e;
     STRAVA_REFRESH_TOKEN := STRAVA_REFRESH_TOKEN e;
     clock_us := clock_us e;
     token_endpoint := token_endpoint e;
     activities_endpoint := activities_endpoint e;
     read_csv_auto := read_csv_auto e |}.

(** The form [get_access_token] posts. *)
Definition token_form (e : env) : token_request :=
  {| client_id := STRAVA_CLIENT_ID e;
     client_secret := STRAVA_CLIENT_SECRET e;
     refresh_token := STRAVA_REFRESH_TOKEN e;
     grant_type := "refresh_token" |}.

(** *** Rows by key *)

Definition keys (t : list row) : list Z := map id t.

(** The row of a table that carries the key [k]. *)
Definition row_of (k : Z) (t : list row) : option row :=
  find (fun r => id r =? k) t.

(** The table once the merge statement has run: the merged table, or the
    table as it was when the statement is refused. *)
Definition table_after (target : table) (staging : list row) : table :=
  match merge_into target staging with
  | Return merged => merged
  | Raise _ => target
  end.

(** *** Any source API, page by page *)

(** The request the fetcher sends for page [k]. *)
Definition page_request (token : json) (after_ before_ : Z) (k : nat)
    : activities_request :=
  {| bearer := token; after := after_; before := before_;
     page := Z.of_nat k; per_page := 200 |}.

(** The answer to it. *)
Definition page_answer (e : env) (token : json) (after_ before_ : Z) (k : nat)
    : activities_response :=
  activities_endpoint e (page_request token after_ before_ k).

(** An answer on which [raise_for_status] raises. *)
Definition is_http_error (r : activities_response) : bool :=
  (400 <=? a_status_code r) && (a_status_code r <? 600).

(** An answer after which the loop asks for the next page: no error
    status and at least one record. *)
Definition goes_on (r : activities_response) : bool :=
  negb (is_http_error r)
  && match a_json r with
     | [] => false
     | _ :: _ => true
     end.

(** An answer on which the loop ends: no error status and no record. *)
Definition is_last (r : activities_response) : bool :=
  negb (is_http_error r)
  && match a_json r with
     | [] => true
     | _ :: _ => false
     end.

(** The records of the pages [first], ..., [first + count - 1]. *)
Definition collected (e : env) (token : json) (after_ before_ : Z)
    (first count : nat) : list record :=
  flat_map (fun k => a_json (page_answer e token after_ before_ k)) (seq first count).

(** *** Sample data *)

Definition empty_world : world :=
  {| log := []; sent := []; cwd := []; activities_raw := None |}.

(** [n] activity objects with ids [1..n]. *)
Definition sample_records (n : nat) : list record :=
  map (fun i => [("id", JInt (Z.of_nat i)); ("name", JStr "Ride")]) (seq 1 n).

Definition token_ok : token_response :=
  {| status_code := 200;
     text := "{'access_token': 'abc', 'token_type': 'Bearer'}";
     decoded := Some (JObj [("token_type", JStr "Bearer"); ("access_token", JStr "abc")]) |}.

Definition token_denied : token_response :=
  {| status_code := 401;
     text := "{'message': 'Authorization Error'}";
     decoded := Some (JObj [("message", JStr "Authorization Error")]) |}.

(** An environment: the given command line, token answer and records held
    by the API; the clock stands at 2025-11-05 00:00:00.25 UTC. *)
Definition sample_env (args : Namespace) (answer : token_response)
    (records : list record) : env :=
  {| argv := args;
     STRAVA_CLIENT_ID := Some "12345";
     STRAVA_CLIENT_SECRET := Some "secret";
     STRAVA_REFRESH_TOKEN := Some "refresh";
     clock_us := 1762300800250000;
     token_endpoint := fun _ => answer;
     activities_endpoint := serve_page records;
     read_csv_auto := fun _ => None |}.

(** An environment with a granted token and the given activities
    endpoint. *)
Definition api_env (endpoint : activities_request -> activities_response) : env :=
  {| argv := {| year := None |};
     STRAVA_CLIENT_ID := Some "12345";
     STRAVA_CLIENT_SECRET := Some "secret";
     STRAVA_REFRESH_TOKEN := Some "refresh";
     clock_us := 1762300800250000;
     token_endpoint := fun _ => token_ok;
     activities_endpoint := endpoint;
     read_csv_auto := fun _ => None |}.

(** An API that answers every page with one activity, except page [k],
    which it answers with status 503. *)
Definition one_per_page_but (k : Z) (r : activities_request) : activities_response :=
  if page r =? k
  then {| a_status_code := 503; a_json := [] |}
  else {| a_status_code := 200; a_json := sample_records 1 |}.

(** The two activities of the specification's examples; the examples
    leave the start date open. *)
Definition morning_run (started : option string) : row :=
  {| id := 1; name := Some "Morning Run with Alex";
     start_date_local := started; type := Some "Workout";
     distance := Some (5000 # 1); moving_time := Some 1800 |}.

Definition evening_ride (started : option string) : row :=
  {| id := 2; name := Some "Evening Ride";
     start_date_local := started; type := Some "Ride";
     distance := Some (10000 # 1); moving_time := Some 2400 |}.

(** A workout whose name carries no coach. *)
Definition solo_workout : row :=
  {| id := 7; name := Some "Evening Ride";
     start_date_local := None; type := Some "Workout";
     distance := Some (10000 # 1); moving_time := Some 2400 |}.

(** A fetched table with a column the projector drops and four of the six
    it keeps missing. *)
Definition sample_table : DataFrame :=
  DataFrame_of_records
    [[("name", JStr "Ride"); ("kudos", JInt 3); ("id", JInt 1)];
     [("id", JInt 2); ("name", JStr "Run")]].

(** A run started with [--year 0]. *)
Definition year_zero_env : env :=
  sample_env {| year := Some 0 |} token_ok (sample_records 2).

(** Rows of the merge example. *)
Definition named (k : Z) (n : string) : row :=
  {| id := k; name := Some n; start_date_local := None; type := Some "Run";
     distance := Some (1000 # 1); moving_time := Some 600 |}.

(** A row whose moving time is beyond a 32-bit integer. *)
Definition oversized : row :=
  {| id := 5; name := Some "Big"; start_date_local := None; type := Some "Run";
     distance := Some (1000 # 1); moving_time := Some 3000000000 |}.

(** A run without a year whose working directory stages as the CSV of the
    merge example, over a table that holds the row 1 named "Old". *)
Definition loader_env : env :=
  {| argv := {| year := None |};
     STRAVA_CLIENT_ID := Some "12345";
     STRAVA_CLIENT_SECRET := Some "secret";
     STRAVA_REFRESH_TOKEN := Some "refresh";
     clock_us := 1762300800250000;
     token_endpoint := fun _ => token_ok;
     activities_endpoint := serve_page (sample_records 2);
     read_csv_auto := fun _ => Some [named 1 "New"; named 3 "Added"] |}.

Definition loaded_world : world :=
  {| log := []; sent := []; cwd := []; activities_raw := Some [named 1 "Old"] |}.

(* ================================================================= *)
(** * Properties *)

(* ================================================================= *)
(** ** Time window *)

Lemma days_before_year_succ (y : Z) :
  days_before_year (y + 1) = days_before_year y + days_in_year y.
Proof.
  unfold days_before_year, days_in_year, is_leap.
  replace (y + 1 - 1) with y by lia.
  destruct (y mod 4 =? 0) eqn:H4; destruct (y mod 100 =? 0) eqn:H100;
    destruct (y mod 400 =? 0) eqn:H400; cbn [andb orb negb];
    rewrite ?Z.eqb_eq, ?Z.eqb_neq in *;
    Z.div_mod_to_equations; lia.
Qed.

Lemma days_of_years_diff (n : nat) :
  forall y, days_of_years y n = days_before_year (y + Z.of_nat n) - days_before_year y.
Proof.
  induction n as [|n IH]; intro y.
  - cbn [days_of_years]. replace (y + Z.of_nat 0) with y by lia. lia.
  - cbn [days_of_years]. rewrite IH, days_before_year_succ.
    replace (y + 1 + Z.of_nat n) with (y + Z.of_nat (S n)) by lia. lia.
Qed.

(** Counting days year by year agrees with the closed form of [datetime]. *)
Lemma jan1_utc_closed_form (Y : Z) :
  jan1_utc Y = (days_before_year Y - days_before_year 1970) * 86400.
Proof.
  unfold jan1_utc. destruct (1970 <=? Y) eqn:H.
  - apply Z.leb_le in H. rewrite days_of_years_diff.
    replace (1970 + Z.of_nat (Z.to_nat (Y - 1970))) with Y by lia. lia.
  - apply Z.leb_gt in H. rewrite days_of_years_diff.
    replace (Y + Z.of_nat (Z.to_nat (1970 - Y))) with 1970 by lia. lia.
Qed.

(** *** The double that [timestamp] returns *)

Lemma round_half_even_bounds (a b : Z) :
  0 < b -> a / b <= round_half_even a b <= a / b + 1.
Proof.
  intro Hb. unfold round_half_even.
  destruct (2 * (a mod b) <? b); [lia |].
  destruct (b <? 2 * (a mod b)); [lia |].
  destruct (Z.even (a / b)); lia.
Qed.

Lemma round_half_even_up (a b : Z) :
  0 < b -> round_half_even a b = a / b + 1 -> b <= 2 * (a mod b).
Proof.
  intro Hb. unfold round_half_even.
  destruct (2 * (a mod b) <? b) eqn:E; [lia |].
  apply Z.ltb_ge in E. lia.
Qed.

Lemma round_half_even_multiple (q b : Z) : 0 < b -> round_half_even (q * b) b = q.
Proof.
  intro Hb. unfold round_half_even.
  rewrite Z.div_mul, Z.mod_mul by lia.
  replace (2 * 0 <? b) with true by (symmetry; apply Z.ltb_lt; lia). reflexivity.
Qed.

(** Scaled by at least 2^19, rounding a multiple of a microsecond does not
    reach the next second. *)
Lemma round_scaled_no_carry (a P : Z) :
  0 <= a -> 524288 <= P ->
  round_half_even (a * P) 1000000 / P = a / 1000000.
Proof.
  intros Ha HP.
  pose proof (round_half_even_bounds (a * P) 1000000 ltac:(lia)) as Hb.
  pose proof (round_half_even_up (a * P) 1000000 ltac:(lia)) as Hup.
  set (m := round_half_even (a * P) 1000000) in *.
  pose proof (Z.div_mod a 1000000 ltac:(lia)) as Ea.
  pose proof (Z.mod_pos_bound a 1000000 ltac:(lia)) as Hr.
  pose proof (Z.div_mod (a * P) 1000000 ltac:(lia)) as EN.
  pose proof (Z.mod_pos_bound (a * P) 1000000 ltac:(lia)) as Hrho.
  set (k := a / 1000000) in *. set (r := a mod 1000000) in *.
  set (q := a * P / 1000000) in *. set (rho := (a * P) mod 1000000) in *.
  assert (Hk : 0 <= k) by (apply Z.div_pos; lia).
  assert (EP : a * P = 1000000 * (k * P) + r * P) by (rewrite Ea at 1; ring).
  assert (HrP : 0 <= r * P <= 999999 * P) by nia.
  symmetry. apply (Z.div_unique_pos m P k (m - k * P)); [| lia].
  destruct (Z.eq_dec m (q + 1)) as [Hm | Hm].
  - specialize (Hup Hm). lia.
  - assert (m = q) by lia. lia.
Qed.

Lemma int_timestamp_exact (us : Z) :
  0 <= us < 17179869184000000 -> int_timestamp us = us / 1000000.
Proof.
  intros [H0 H1]. unfold int_timestamp, int_of_true_divide.
  rewrite Z.abs_eq by assumption.
  destruct (us =? 0) eqn:E0.
  { apply Z.eqb_eq in E0. now subst. }
  apply Z.eqb_neq in E0.
  assert (Hlog : Z.log2 us <= 53).
  { assert (Z.log2 us < 54); [| lia].
    apply Z.log2_lt_pow2; [lia |]. change (2 ^ 54) with 18014398509481984. lia. }
  change (Z.log2 1000000) with 19.
  set (e0 := Z.log2 us - 19 - 52).
  set (e := if 2 ^ 52 <=? scale_num us e0 / scale_den 1000000 e0 then e0 else e0 - 1).
  assert (He : e <= -19).
  { unfold e. destruct (Z.eq_dec (Z.log2 us) 53) as [E53 | E53].
    - assert (e0 = -18) as -> by (unfold e0; lia).
      unfold scale_num, scale_den. cbn [Z.leb Z.compare Z.opp].
      assert (us * 2 ^ 18 / 1000000 < 2 ^ 52).
      { apply Z.div_lt_upper_bound; [lia |].
        change (2 ^ 18) with 262144. change (2 ^ 52) with 4503599627370496. lia. }
      destruct (2 ^ 52 <=? us * 2 ^ 18 / 1000000) eqn:Et; [| lia].
      apply Z.leb_le in Et. lia.
    - assert (e0 <= -19) by (unfold e0; lia).
      destruct (2 ^ 52 <=? scale_num us e0 / scale_den 1000000 e0); lia. }
  clearbody e. clear e0.
  unfold scale_num, scale_den.
  replace (0 <=? e) with false by (symmetry; apply Z.leb_gt; lia).
  rewrite Z.sgn_pos by lia. rewrite Z.mul_1_l.
  apply round_scaled_no_carry; [assumption |].
  change 524288 with (2 ^ 19). apply Z.pow_le_mono_r; lia.
Qed.

(** A whole number of seconds below 2^52 is held exactly. *)
Lemma int_timestamp_whole (s : Z) :
  Z.abs s < 2 ^ 52 -> int_timestamp (s * 1000000) = s.
Proof.
  intro Hs. unfold int_timestamp, int_of_true_divide.
  destruct (Z.abs (s * 1000000) =? 0) eqn:E0.
  { apply Z.eqb_eq in E0. lia. }
  apply Z.eqb_neq in E0.
  assert (Ha : Z.abs (s * 1000000) = Z.abs s * 1000000) by lia.
  rewrite Ha. assert (Hpos : 0 < Z.abs s) by lia.
  assert (Hlog : Z.log2 (Z.abs s * 1000000) <= 71).
  { pose proof (Z.log2_mul_above (Z.abs s) 1000000 ltac:(lia) ltac:(lia)) as Hm.
    change (Z.log2 1000000) with 19 in Hm.
    assert (Z.log2 (Z.abs s) < 52) by (apply Z.log2_lt_pow2; lia). lia. }
  change (Z.log2 1000000) with 19.
  set (a := Z.abs s * 1000000) in *.
  set (e0 := Z.log2 a - 19 - 52).
  set (e := if 2 ^ 52 <=? scale_num a e0 / scale_den 1000000 e0 then e0 else e0 - 1).
  assert (He : e <= 0).
  { unfold e. assert (e0 <= 0) by (unfold e0; lia).
    destruct (2 ^ 52 <=? scale_num a e0 / scale_den 1000000 e0); lia. }
  clearbody e. clear e0.
  assert (Hsgn : Z.sgn (s * 1000000) * Z.abs s = s) by lia.
  unfold scale_num, scale_den.
  destruct (0 <=? e) eqn:Ee.
  - apply Z.leb_le in Ee. assert (e = 0) as -> by lia.
    rewrite Z.pow_0_r, !Z.mul_1_r. unfold a.
    rewrite round_half_even_multiple by lia. exact Hsgn.
  - apply Z.leb_gt in Ee.
    assert (HP : 0 < 2 ^ (- e)) by (apply Z.pow_pos_nonneg; lia).
    replace (a * 2 ^ (- e)) with ((Z.abs s * 2 ^ (- e)) * 1000000) by (unfold a; ring).
    rewrite round_half_even_multiple by lia.
    rewrite Z.div_mul by lia. exact Hsgn.
Qed.

Lemma datetime_utc_jan1 (Y : Z) :
  1 <= Y <= 9999 -> datetime_utc Y 1 1 = Return (mk_datetime Y 1 1).
Proof.
  intro H. unfold datetime_utc, fits_C_int, INT_MIN, INT_MAX, MINYEAR, MAXYEAR.
  replace (- 2 ^ 31 <=? Y) with true by (symmetry; apply Z.leb_le; lia).
  replace (Y <=? 2 ^ 31 - 1) with true by (symmetry; apply Z.leb_le; lia).
  replace (1 <=? Y) with true by (symmetry; apply Z.leb_le; lia).
  replace (Y <=? 9999) with true by (symmetry; apply Z.leb_le; lia).
  reflexivity.
Qed.

(** A year that fits a C int but not the calendar. *)
Lemma datetime_utc_out_of_range (Y : Z) :
  - 2 ^ 31 <= Y <= 2 ^ 31 - 1 -> ~ 1 <= Y <= 9999 ->
  datetime_utc Y 1 1
  = Raise (ValueError ("year " ++ string_of_Z Y ++ " is out of range")%string).
Proof.
  intros Hc H. unfold datetime_utc, fits_C_int, INT_MIN, INT_MAX, MINYEAR, MAXYEAR.
  replace (- 2 ^ 31 <=? Y) with true by (symmetry; apply Z.leb_le; lia).
  replace (Y <=? 2 ^ 31 - 1) with true by (symmetry; apply Z.leb_le; lia).
  cbn [andb negb fits_C_int].
  destruct (1 <=? Y) eqn:H1; destruct (Y <=? 9999) eqn:H2; try reflexivity.
  apply Z.leb_le in H1, H2. lia.
Qed.

(** A year that does not fit a C int. *)
Lemma datetime_utc_overflow (Y : Z) :
  ~ - 2 ^ 31 <= Y <= 2 ^ 31 - 1 -> datetime_utc Y 1 1 = Raise OverflowError.
Proof.
  intro H. unfold datetime_utc, fits_C_int, INT_MIN, INT_MAX.
  destruct (- 2 ^ 31 <=? Y) eqn:H1; destruct (Y <=? 2 ^ 31 - 1) eqn:H2;
    try reflexivity.
  apply Z.leb_le in H1, H2. lia.
Qed.

Lemma days_before_year_bounds (Y : Z) :
  1 <= Y <= 9999 -> 0 <= days_before_year Y <= 3652059.
Proof.
  intro H. unfold days_before_year. Z.div_mod_to_equations. lia.
Qed.

Lemma timestamp_jan1 (Y : Z) :
  1 <= Y <= 9999 -> timestamp (mk_datetime Y 1 1) = jan1_utc Y.
Proof.
  intro H. rewrite jan1_utc_closed_form. unfold timestamp, EPOCH_ordinal, toordinal.
  cbn [dt_year dt_month dt_day]. unfold days_before_month. cbn [Z.sub Z.to_nat seq map fold_right Pos.to_nat Pos.pred_double Z.pos_sub Z.add Z.opp].
  pose proof (days_before_year_bounds Y H) as Hb.
  pose proof (days_before_year_bounds 1970 ltac:(lia)) as Hb0.
  replace ((days_before_year Y + 0 + 1 - (days_before_year 1970 + 0 + 1)) * 86400 * 1000000)
    with ((days_before_year Y - days_before_year 1970) * 86400 * 1000000) by lia.
  apply int_timestamp_whole.
  change (2 ^ 52) with 4503599627370496. lia.
Qed.

Lemma year_to_unix_range_in_range (Y : Z) :
  1 <= Y <= 9998 -> year_to_unix_range Y = Return (jan1_utc Y, jan1_utc (Y + 1)).
Proof.
  intro H. unfold year_to_unix_range.
  rewrite !datetime_utc_jan1 by lia. now rewrite !timestamp_jan1 by lia.
Qed.

Lemma year_to_unix_range_out_of_range (Y : Z) :
  - 2 ^ 31 <= Y <= 2 ^ 31 - 1 -> ~ 1 <= Y <= 9998 ->
  exists msg, year_to_unix_range Y = Raise (ValueError msg).
Proof.
  intros Hc H. unfold year_to_unix_range.
  destruct (Z.eq_dec Y 9999) as [-> | Hne].
  - eexists. reflexivity.
  - rewrite datetime_utc_out_of_range by lia. eexists. reflexivity.
Qed.

Lemma year_to_unix_range_overflow (Y : Z) :
  ~ - 2 ^ 31 <= Y <= 2 ^ 31 - 1 -> year_to_unix_range Y = Raise OverflowError.
Proof.
  intro H. unfold year_to_unix_range. now rewrite datetime_utc_overflow.
Qed.

(** C6, as the code has it.  For every year Y from 1 to 9998 the fetch
    window is the half-open interval [Jan 1 Y 00:00 UTC, Jan 1 Y+1 00:00 UTC)
    of Unix timestamps.  For any other year no window is built: [ValueError]
    is raised when the year fits a C int, [OverflowError] when it does not.
    When no year is given and the clock reads from seven days after the
    epoch up to 2^34 seconds after it (the year 2514), the window is
    [now - 7 days, now), both ends cut to whole seconds. *)
Theorem fetch_window_spec (now_us : Z) :
  (forall Y, 1 <= Y <= 9998 ->
     fetch_window now_us (Some Y) = Return (jan1_utc Y, jan1_utc (Y + 1)))
  /\ (forall Y, ~ 1 <= Y <= 9998 -> - 2 ^ 31 <= Y <= 2 ^ 31 - 1 ->
        exists msg, fetch_window now_us (Some Y) = Raise (ValueError msg))
  /\ (forall Y, ~ - 2 ^ 31 <= Y <= 2 ^ 31 - 1 ->
        fetch_window now_us (Some Y) = Raise OverflowError)
  /\ (seven_days_us <= now_us < 2 ^ 34 * 1000000 ->
      fetch_window now_us None
      = Return (now_us / 1000000 - 7 * 86400, now_us / 1000000)).
Proof.
  split; [| split; [| split]].
  - intros Y H. apply year_to_unix_range_in_range, H.
  - intros Y H Hc. now apply year_to_unix_range_out_of_range.
  - intros Y H. now apply year_to_unix_range_overflow.
  - intro H. unfold seven_days_us in H. change (2 ^ 34) with 17179869184 in H.
    cbn [fetch_window]. unfold seven_days_us.
    rewrite !int_timestamp_exact by lia.
    f_equal. f_equal. Z.div_mod_to_equations. lia.
Qed.

(** The window of the year 2024, the years 10000 and 2^31, and a run
    without a year on 2025-11-05. *)
Lemma fetch_window_spec_witness :
  fetch_window 1762300800250000 (Some 2024) = Return (1704067200, 1735689600)
  /\ (exists msg, fetch_window 1762300800250000 (Some 10000) = Raise (ValueError msg))
  /\ fetch_window 1762300800250000 (Some 2147483648) = Raise OverflowError
  /\ fetch_window 1762300800250000 None = Return (1761696000, 1762300800).
Proof.
  destruct (fetch_window_spec 1762300800250000)
    as (Hyear & Hout & Hover & Hnone).
  split; [| split; [| split]].
  - rewrite (Hyear 2024) by lia. vm_compute. reflexivity.
  - apply (Hout 10000); lia.
  - apply (Hover 2147483648). lia.
  - rewrite Hnone; [reflexivity |]. unfold seven_days_us. lia.
Defined.

(** C6 as stated fails: 9999 is a year of the calendar, and for it no
    window is built, since the end of the window would lie in the year
    10000. *)
Lemma fetch_window_year_9999 :
  fetch_window 1762300800250000 (Some 9999)
  = Raise (ValueError "year 10000 is out of range")
  /\ fetch_window 1762300800250000 (Some 9999)
     <> Return (jan1_utc 9999, jan1_utc 10000).
Proof.
  split; [reflexivity | vm_compute; discriminate].
Qed.

(** Past 2^34 seconds the double no longer tells microseconds apart: one
    microsecond before a full second, [int] of the timestamp is already the
    next second. *)
Example int_timestamp_rounds_up :
  int_timestamp 17179869184999999 = 17179869185
  /\ 17179869184999999 / 1000000 = 17179869184.
Proof. split; reflexivity. Qed.

(* ================================================================= *)
(** ** The derived view *)

(** C1.  The view maps the activity 1, "Morning Run with Alex", a Workout
    of 5000.0 m and 1800 s, to workout type "Morning Run", coach "Alex",
    5.0 km and 30.0 min, and the activity 2, "Evening Ride", a Ride of
    10000.0 m and 2400 s, to a null workout type, a null coach, 10.0 km and
    40.0 min; in every row [distance_km] is [round(distance // 1000, 1)] and
    [moving_time_min] is [round(moving_time // 60, 1)]. *)
Theorem activities_examples (dd : double_division) (started : option string) :
  activities dd [morning_run started; evening_ride started]
  = [ {| v_id := 1; v_name := Some "Morning Run with Alex";
         start_date := started; v_type := Some "Workout";
         workout_type := Some "Morning Run"; coach := Some "Alex";
         distance_km := Some (5 # 1)%Q; moving_time_min := Some (30 # 1)%Q |};
      {| v_id := 2; v_name := Some "Evening Ride";
         start_date := started; v_type := Some "Ride";
         workout_type := None; coach := None;
         distance_km := Some (10 # 1)%Q; moving_time_min := Some (40 # 1)%Q |} ]
  /\ (forall r,
        distance_km (activities_row dd r)
        = option_map (fun d => sql_round (double_intdiv dd d 1000) 1) (distance r))
  /\ (forall r,
        moving_time_min (activities_row dd r)
        = option_map (fun t => sql_round (inject_Z (int_intdiv t 60)) 1)
                     (moving_time r)).
Proof.
  split; [| split]; [destruct dd |..]; reflexivity.
Qed.

Lemma regexp_extract_no_match (s : string) (g : nat) :
  regexp_matches s name_pattern = false ->
  regexp_extract_str s name_pattern g = EmptyString.
Proof.
  unfold regexp_matches, regexp_extract_str.
  destruct (regex_search name_pattern s); [discriminate | reflexivity].
Qed.

Lemma case_when_not_null {A : Type} (cond : option bool) (v : option A) :
  case_when cond v <> None -> cond = Some true.
Proof.
  destruct cond as [[|]|]; cbn; congruence.
Qed.

(** *** The matcher against the declarative reading of the pattern *)

Lemma greedy_sound (c : charclass) (k : nat -> string -> option captures)
    (s : string) :
  forall (pos : nat) (caps : captures),
    greedy c k pos s = Some caps ->
    exists p r, s = (p ++ r)%string /\ all_in c p = true
                /\ k (pos + String.length p)%nat r = Some caps.
Proof.
  induction s as [|a s IH]; intros pos caps H; cbn [greedy] in H.
  - exists EmptyString, EmptyString. cbn. now rewrite Nat.add_0_r.
  - destruct (in_class c a) eqn:Ea.
    + destruct (greedy c k (S pos) s) as [caps'|] eqn:Eg.
      * injection H as <-. apply IH in Eg as (p & r & -> & Hall & Hk).
        exists (String a p), r. cbn. rewrite Ea, Hall, Nat.add_succ_r.
        now repeat split.
      * exists EmptyString, (String a s). cbn. now rewrite Nat.add_0_r.
    + exists EmptyString, (String a s). cbn. now rewrite Nat.add_0_r.
Qed.

Lemma greedy_fallback (c : charclass) (k : nat -> string -> option captures)
    (pos : nat) (s : string) :
  k pos s <> None -> greedy c k pos s <> None.
Proof.
  intro H. destruct s as [|a s]; cbn [greedy]; [assumption |].
  destruct (in_class c a); [| assumption].
  now destruct (greedy c k (S pos) s).
Qed.

Lemma greedy_complete (c : charclass) (k : nat -> string -> option captures)
    (p r : string) :
  forall pos : nat,
    all_in c p = true ->
    k (pos + String.length p)%nat r <> None ->
    greedy c k pos (p ++ r)%string <> None.
Proof.
  induction p as [|a p IH]; intros pos Hall Hk.
  - cbn in *. rewrite Nat.add_0_r in Hk. now apply greedy_fallback.
  - cbn in Hall. apply andb_true_iff in Hall as [Ha Hall].
    cbn [String.append greedy]. rewrite Ha.
    cbn [String.length] in Hk. rewrite Nat.add_succ_r in Hk.
    specialize (IH (S pos) Hall Hk).
    now destruct (greedy c k (S pos) (p ++ r)%string).
Qed.

Section MatchHereEquations.

Variables (rest : regex) (opened : list (nat * nat)) (caps : captures)
          (pos : nat) (s : string).

Lemma match_here_Bol :
  match_here (Bol :: rest) opened caps 0 s = match_here rest opened caps 0 s.
Proof. reflexivity. Qed.

Lemma match_here_Eol :
  match_here (Eol :: rest) opened caps pos s
  = match s with
    | EmptyString => match_here rest opened caps pos s
    | String _ _ => None
    end.
Proof. reflexivity. Qed.

Lemma match_here_Lit (l : string) :
  match_here (Lit l :: rest) opened caps pos s
  = match strip_prefix l s with
    | Some s' => match_here rest opened caps (pos + String.length l) s'
    | None => None
    end.
Proof. reflexivity. Qed.

Lemma match_here_Star (c : charclass) :
  match_here (Star c :: rest) opened caps pos s
  = greedy c (match_here rest opened caps) pos s.
Proof. reflexivity. Qed.

Lemma match_here_Open (g : nat) :
  match_here (Open g :: rest) opened caps pos s
  = match_here rest ((g, pos) :: opened) caps pos s.
Proof. reflexivity. Qed.

Lemma match_here_Close (g start : nat) :
  assoc_nat g opened = Some start ->
  match_here (Close g :: rest) opened caps pos s
  = match_here rest opened ((g, (start, pos)) :: caps) pos s.
Proof. intro H. cbn [match_here]. now rewrite H. Qed.

Lemma match_here_nil : match_here [] opened caps pos s = Some caps.
Proof. reflexivity. Qed.

End MatchHereEquations.

Lemma plus_sound (c : charclass) (rest : regex) (opened : list (nat * nat))
    (caps0 caps : captures) (pos : nat) (s : string) :
  match_here (Plus c :: rest) opened caps0 pos s = Some caps ->
  exists p r, s = (p ++ r)%string /\ all_in c p = true /\ p <> EmptyString
              /\ match_here rest opened caps0 (pos + String.length p)%nat r = Some caps.
Proof.
  cbn [match_here]. destruct s as [|a s]; [discriminate |].
  destruct (in_class c a) eqn:Ea; [| discriminate].
  intro H. apply greedy_sound in H as (p & r & -> & Hall & Hk).
  exists (String a p), r. cbn. rewrite Ea, Hall, Nat.add_succ_r.
  repeat split; [discriminate | assumption].
Qed.

Lemma plus_complete (c : charclass) (rest : regex) (opened : list (nat * nat))
    (caps0 : captures) (pos : nat) (p r : string) :
  all_in c p = true -> p <> EmptyString ->
  match_here rest opened caps0 (pos + String.length p)%nat r <> None ->
  match_here (Plus c :: rest) opened caps0 pos (p ++ r)%string <> None.
Proof.
  intros Hall Hne Hk. destruct p as [|a p]; [congruence |].
  cbn in Hall. apply andb_true_iff in Hall as [Ha Hall].
  cbn [match_here String.append]. rewrite Ha.
  apply greedy_complete; [assumption |].
  cbn [String.length] in Hk. now rewrite Nat.add_succ_r in Hk.
Qed.

Lemma strip_prefix_sound (l s r : string) :
  strip_prefix l s = Some r -> s = (l ++ r)%string.
Proof.
  revert s. induction l as [|a l IH]; intros s H; cbn in H.
  - now injection H as ->.
  - destruct s as [|b s]; [discriminate |].
    destruct (Ascii.eqb a b) eqn:E; [| discriminate].
    apply Ascii.eqb_eq in E. subst b. cbn. f_equal. now apply IH.
Qed.

Lemma strip_prefix_complete (l r : string) : strip_prefix l (l ++ r)%string = Some r.
Proof.
  induction l as [|a l IH]; cbn; [reflexivity |].
  now rewrite Ascii.eqb_refl.
Qed.

Lemma substring_prefix (a b : string) :
  substring 0 (String.length a) (a ++ b)%string = a.
Proof.
  induction a as [|x a IH]; cbn.
  - now destruct b.
  - now rewrite IH.
Qed.

Lemma substring_skip (a b : string) (m : nat) :
  substring (String.length a) m (a ++ b)%string = substring 0 m b.
Proof.
  induction a as [|x a IH]; cbn; [reflexivity | assumption].
Qed.

Lemma string_length_append (a b : string) :
  String.length (a ++ b)%string = (String.length a + String.length b)%nat.
Proof.
  induction a as [|x a IH]; cbn; [reflexivity | now rewrite IH].
Qed.

Lemma string_append_assoc (a b c : string) :
  ((a ++ b) ++ c)%string = (a ++ b ++ c)%string.
Proof.
  induction a as [|x a IH]; cbn; [reflexivity | now rewrite IH].
Qed.

Lemma string_append_nil_r (a : string) : (a ++ EmptyString)%string = a.
Proof.
  induction a as [|x a IH]; cbn; [reflexivity | now rewrite IH].
Qed.

(** When the matcher finds a match, the name reads as the pattern says
    and the groups it reports are the two parts of that reading. *)
Lemma regex_search_sound (s : string) (caps : captures) :
  regex_search name_pattern s = Some caps ->
  name_matches_as s (regexp_extract_str s name_pattern 1)
                    (regexp_extract_str s name_pattern 2).
Proof.
  intro H. unfold regexp_extract_str. rewrite H.
  unfold regex_search, name_pattern in H.
  rewrite match_here_Bol, match_here_Open, match_here_Star in H.
  apply greedy_sound in H as (g1 & r1 & -> & Hg1 & H).
  erewrite match_here_Close in H by reflexivity.
  apply plus_sound in H as (sp1 & r2 & -> & Hsp1 & Hne1 & H).
  rewrite match_here_Lit in H.
  destruct (strip_prefix "with" r2) as [r3|] eqn:Ew; [| discriminate].
  apply strip_prefix_sound in Ew. subst r2.
  apply plus_sound in H as (sp2 & r4 & -> & Hsp2 & Hne2 & H).
  rewrite match_here_Open in H.
  apply plus_sound in H as (g2 & r5 & -> & Hg2 & Hne3 & H).
  erewrite match_here_Close in H by reflexivity. rewrite match_here_Eol in H.
  destruct r5; [| discriminate]. rewrite match_here_nil in H. injection H as <-.
  cbn [assoc_nat Nat.eqb]. rewrite string_append_nil_r.
  assert (E1 : forall n, n = String.length g1 ->
                 substring 0 (n - 0) (g1 ++ sp1 ++ "with" ++ sp2 ++ g2)%string = g1).
  { intros n ->. rewrite Nat.sub_0_r. apply substring_prefix. }
  assert (E2 : forall start stop,
                 start = String.length (g1 ++ sp1 ++ "with" ++ sp2)%string ->
                 stop = (start + String.length g2)%nat ->
                 substring start (stop - start) (g1 ++ sp1 ++ "with" ++ sp2 ++ g2)%string
                 = g2).
  { intros start stop -> ->.
    replace (String.length (g1 ++ sp1 ++ "with" ++ sp2)%string + String.length g2
             - String.length (g1 ++ sp1 ++ "with" ++ sp2)%string)%nat
      with (String.length g2) by lia.
    replace (g1 ++ sp1 ++ "with" ++ sp2 ++ g2)%string
      with ((g1 ++ sp1 ++ "with" ++ sp2) ++ g2 ++ EmptyString)%string.
    - rewrite substring_skip. apply substring_prefix.
    - rewrite string_append_nil_r. now rewrite !string_append_assoc. }
  rewrite E1 by reflexivity.
  rewrite E2; [| rewrite !string_length_append; cbn [String.length]; lia | reflexivity].
  exists sp1, sp2. now repeat split.
Qed.

(** When the name reads as the pattern says, the matcher finds a match. *)
Lemma regex_search_complete (s : string) :
  name_matches s -> regex_search name_pattern s <> None.
Proof.
  intros (g1 & g2 & sp1 & sp2 & -> & Hg1 & Hsp1 & Hne1 & Hsp2 & Hne2 & Hg2 & Hne3).
  unfold regex_search, name_pattern.
  rewrite match_here_Bol, match_here_Open, match_here_Star.
  apply greedy_complete; [assumption |].
  erewrite match_here_Close by reflexivity.
  apply plus_complete; [assumption | assumption |].
  rewrite match_here_Lit, strip_prefix_complete.
  apply plus_complete; [assumption | assumption |].
  rewrite match_here_Open.
  rewrite <- (string_append_nil_r g2).
  apply plus_complete; [assumption | assumption |].
  erewrite match_here_Close by reflexivity. rewrite match_here_Eol, match_here_nil.
  discriminate.
Qed.

(** The matcher decides the declarative reading. *)
Lemma regexp_matches_iff (s : string) :
  regexp_matches s name_pattern = true <-> name_matches s.
Proof.
  unfold regexp_matches. split.
  - destruct (regex_search name_pattern s) as [caps|] eqn:E; [| discriminate].
    intros _. eexists. eexists. exact (regex_search_sound s caps E).
  - intro H. apply regex_search_complete in H.
    now destruct (regex_search name_pattern s).
Qed.

Lemma regexp_matches_false_iff (s : string) :
  regexp_matches s name_pattern = false <-> ~ name_matches s.
Proof.
  rewrite <- regexp_matches_iff. now destruct (regexp_matches s name_pattern).
Qed.

(** A matching name yields, where the type lets them through, two groups
    that are a reading of the name. *)
Lemma activities_name_with_match (dd : double_division) (r : row) (n : string) :
  name r = Some n -> name_matches n ->
  exists g1 g2,
    name_matches_as n g1 g2
    /\ (type r = Some "Workout" -> workout_type (activities_row dd r) = Some g1)
    /\ (type r = Some "Workout" \/ type r = Some "VirtualRide" ->
          coach (activities_row dd r) = Some g2).
Proof.
  intros Hn Hm. apply regexp_matches_iff in Hm. unfold regexp_matches in Hm.
  destruct (regex_search name_pattern n) as [caps|] eqn:E; [| discriminate].
  exists (regexp_extract_str n name_pattern 1), (regexp_extract_str n name_pattern 2).
  split; [exact (regex_search_sound n caps E) |].
  cbn [activities_row workout_type coach]. rewrite Hn. split.
  - now intros ->.
  - now intros [-> | ->].
Qed.

(** C3, as the code has it.  For a row whose name does not match the
    pattern, [workout_type] is the empty string when the type is 'Workout'
    and null otherwise, and [coach] is the empty string when the type is
    'Workout' or 'VirtualRide' and null otherwise; for a row with a null name
    both are null.  In every row [workout_type] is non-null only when the
    type is 'Workout', and [coach] only when it is 'Workout' or
    'VirtualRide'. *)
Theorem activities_name_without_match (dd : double_division) (r : row) :
  (forall n, name r = Some n -> ~ name_matches n ->
     (type r = Some "Workout" ->
        workout_type (activities_row dd r) = Some EmptyString)
     /\ (type r <> Some "Workout" -> workout_type (activities_row dd r) = None)
     /\ (type r = Some "Workout" \/ type r = Some "VirtualRide" ->
           coach (activities_row dd r) = Some EmptyString)
     /\ (type r <> Some "Workout" -> type r <> Some "VirtualRide" ->
           coach (activities_row dd r) = None))
  /\ (name r = None ->
      workout_type (activities_row dd r) = None /\ coach (activities_row dd r) = None)
  /\ (workout_type (activities_row dd r) <> None -> type r = Some "Workout")
  /\ (coach (activities_row dd r) <> None ->
      type r = Some "Workout" \/ type r = Some "VirtualRide").
Proof.
  assert (Hw : workout_type (activities_row dd r) <> None -> type r = Some "Workout").
  { intro H. apply case_when_not_null in H.
    destruct (type r) as [t|]; cbn in H; [| discriminate].
    injection H as H. apply String.eqb_eq in H. now subst. }
  assert (Hc : coach (activities_row dd r) <> None ->
               type r = Some "Workout" \/ type r = Some "VirtualRide").
  { intro H. apply case_when_not_null in H.
    destruct (type r) as [t|]; cbn in H; [| discriminate].
    injection H as H. rewrite !orb_true_iff in H.
    destruct H as [H | [H | H]]; [| | discriminate];
      apply String.eqb_eq in H; subst; auto. }
  split; [| split; [| split; assumption]].
  - intros n Hn Hno. apply regexp_matches_false_iff in Hno.
    assert (E1 : regexp_extract (name r) name_pattern 1 = Some EmptyString).
    { rewrite Hn. cbn [regexp_extract option_map].
      now rewrite (regexp_extract_no_match n 1 Hno). }
    assert (E2 : regexp_extract (name r) name_pattern 2 = Some EmptyString).
    { rewrite Hn. cbn [regexp_extract option_map].
      now rewrite (regexp_extract_no_match n 2 Hno). }
    split; [| split; [| split]].
    + intro Ht. cbn [activities_row workout_type]. now rewrite E1, Ht.
    + intro Ht. destruct (workout_type (activities_row dd r)) eqn:E; [| reflexivity].
      exfalso. apply Ht, Hw. discriminate.
    + intro Ht. cbn [activities_row coach]. rewrite E2.
      now destruct Ht as [-> | ->].
    + intros Ht1 Ht2. destruct (coach (activities_row dd r)) eqn:E; [| reflexivity].
      exfalso. destruct Hc as [H | H]; [discriminate | now apply Ht1 | now apply Ht2].
  - intro Hn. cbn [activities_row workout_type coach]. rewrite Hn.
    cbn [regexp_extract option_map]. split.
    + now destruct (sql_eq (type r) "Workout") as [[|]|].
    + now destruct (sql_in (type r) ["Workout"; "VirtualRide"]) as [[|]|].
Qed.

(** A workout named "Evening Ride". *)
Lemma activities_name_without_match_witness :
  ~ name_matches "Evening Ride"
  /\ workout_type (activities_row CutToWhole solo_workout) = Some EmptyString
  /\ coach (activities_row CutToWhole solo_workout) = Some EmptyString.
Proof.
  assert (Hno : ~ name_matches "Evening Ride")
    by (apply regexp_matches_false_iff; reflexivity).
  destruct (activities_name_without_match CutToWhole solo_workout) as [H _].
  destruct (H "Evening Ride" eq_refl Hno) as (Hw & _ & Hc & _).
  split; [exact Hno |]. split; [apply Hw | apply Hc; left]; reflexivity.
Defined.

(** C3 as stated fails: the name "Evening Ride" does not match the
    pattern, yet for a row of type 'Workout' neither column is null,
    whichever way the engine divides doubles. *)
Lemma solo_workout_not_null :
  ~ name_matches "Evening Ride"
  /\ name solo_workout = Some "Evening Ride"
  /\ type solo_workout = Some "Workout"
  /\ workout_type (activities_row CutToWhole solo_workout) <> None
  /\ coach (activities_row CutToWhole solo_workout) <> None
  /\ workout_type (activities_row PlainQuotient solo_workout) <> None
  /\ coach (activities_row PlainQuotient solo_workout) <> None.
Proof.
  split; [apply regexp_matches_false_iff; reflexivity |].
  repeat split; vm_compute; discriminate.
Qed.

(* ================================================================= *)
(** ** The merge *)

Section Merge.

Implicit Types (target staging merged : list row) (s t : row) (k : Z).

Lemma has_key_true k (l : list row) :
  has_key k l = true <-> In k (keys l).
Proof.
  unfold has_key, keys. rewrite existsb_exists, in_map_iff. split.
  - intros (r & Hin & Hk). apply Z.eqb_eq in Hk. eauto.
  - intros (r & Hk & Hin). exists r. split; [assumption | now apply Z.eqb_eq].
Qed.

Lemma has_key_false k (l : list row) :
  has_key k l = false <-> ~ In k (keys l).
Proof.
  rewrite <- has_key_true. now destruct (has_key k l).
Qed.

Lemma duplicate_key_none (l : list Z) : duplicate_key l = None <-> NoDup l.
Proof.
  induction l as [|k l IH]; cbn [duplicate_key].
  - split; [constructor | reflexivity].
  - destruct (existsb (Z.eqb k) l) eqn:E.
    + split; [discriminate |]. intro H. inversion H as [|? ? Hnot _]. subst.
      exfalso. apply Hnot. apply existsb_exists in E as (x & Hin & Hx).
      apply Z.eqb_eq in Hx. now subst.
    + rewrite IH. split.
      * intro H. constructor; [| assumption]. intro Hin.
        assert (existsb (Z.eqb k) l = true) as E'
          by (apply existsb_exists; exists k; split; [assumption | apply Z.eqb_refl]).
        congruence.
      * intro H. now inversion H.
Qed.

(** Rows with unique keys are determined by their key. *)
Lemma same_key_same_row (l : list row) s t :
  NoDup (keys l) -> In s l -> In t l -> id s = id t -> s = t.
Proof.
  unfold keys. induction l as [|r l IH]; cbn; [contradiction |].
  intros Hnd Hs Ht Hid. inversion Hnd as [|? ? Hnot Hnd']. subst.
  destruct Hs as [-> | Hs], Ht as [-> | Ht]; auto.
  - exfalso. apply Hnot. rewrite Hid. now apply in_map.
  - exfalso. apply Hnot. rewrite <- Hid. now apply in_map.
Qed.

Lemma row_of_unique (l : list row) s :
  NoDup (keys l) -> In s l -> row_of (id s) l = Some s.
Proof.
  intros Hnd Hin. unfold row_of.
  destruct (find (fun r => id r =? id s) l) as [r|] eqn:E.
  - apply find_some in E as [Hr Hk]. apply Z.eqb_eq in Hk.
    f_equal. now apply (same_key_same_row l).
  - apply find_none with (x := s) in E; [| assumption].
    now rewrite Z.eqb_refl in E.
Qed.

Lemma row_of_none k (l : list row) : ~ In k (keys l) -> row_of k l = None.
Proof.
  intro H. unfold row_of. destruct (find (fun r => id r =? k) l) as [r|] eqn:E;
    [| reflexivity].
  apply find_some in E as [Hr Hk]. apply Z.eqb_eq in Hk. subst.
  exfalso. apply H. unfold keys. now apply in_map.
Qed.

Lemma update_matched_id staging t : id (update_matched staging t) = id t.
Proof.
  unfold update_matched, partner.
  destruct (find (fun s => id s =? id t) staging) as [s|] eqn:E; [| reflexivity].
  apply find_some in E as [_ Hk]. now apply Z.eqb_eq in Hk.
Qed.

Lemma keys_update_matched staging target :
  keys (map (update_matched staging) target) = keys target.
Proof.
  unfold keys. rewrite map_map. apply map_ext, update_matched_id.
Qed.

Lemma update_matched_idem staging t :
  update_matched staging (update_matched staging t) = update_matched staging t.
Proof.
  unfold update_matched at 2 3. unfold partner.
  destruct (find (fun s => id s =? id t) staging) as [s|] eqn:E.
  - pose proof (find_some _ _ E) as [_ Hk]. apply Z.eqb_eq in Hk.
    unfold update_matched, partner. rewrite Hk. now rewrite E.
  - unfold update_matched, partner. now rewrite E.
Qed.

Lemma update_matched_no_partner staging t :
  ~ In (id t) (keys staging) -> update_matched staging t = t.
Proof.
  intro H. unfold update_matched, partner.
  fold (row_of (id t) staging). now rewrite row_of_none.
Qed.

Lemma in_not_matched target staging s :
  In s (not_matched target staging) <-> In s staging /\ ~ In (id s) (keys target).
Proof.
  unfold not_matched. rewrite filter_In, negb_true_iff, has_key_false. reflexivity.
Qed.

Lemma keys_filter_NoDup (f : row -> bool) (l : list row) :
  NoDup (keys l) -> NoDup (keys (filter f l)).
Proof.
  unfold keys. induction l as [|r l IH]; cbn; [trivial |].
  intro H. inversion H as [|? ? Hnot Hnd]. subst.
  destruct (f r); cbn; [constructor |]; auto.
  intro Hin. apply Hnot. apply in_map_iff in Hin as (x & Hx & Hin).
  apply filter_In in Hin as [Hin _]. rewrite <- Hx. now apply in_map.
Qed.

Lemma find_misfit_none (l : list row) :
  find (fun s => negb (fits_columns s)) l = None <-> forallb fits_columns l = true.
Proof.
  induction l as [|r l IH]; cbn; [now split |].
  destruct (fits_columns r); cbn; [exact IH |]. now split.
Qed.

(** The statement completes exactly when every staged row fits the columns
    and no id is staged twice. *)
Lemma merge_into_completes target staging :
  (forallb fits_columns staging = true /\ NoDup (keys staging)) <->
  merge_into target staging
  = Return (map (update_matched staging) target ++ not_matched target staging).
Proof.
  unfold merge_into. fold (keys staging).
  destruct (find (fun s => negb (fits_columns s)) staging) as [s|] eqn:Ef.
  - split; [| discriminate]. intros [H _]. apply find_misfit_none in H. congruence.
  - apply find_misfit_none in Ef.
    destruct (duplicate_key (keys staging)) as [k|] eqn:E.
    + split; [| discriminate]. intros [_ H]. apply duplicate_key_none in H. congruence.
    + split; [reflexivity |]. intros _. split; [assumption |].
      now apply duplicate_key_none.
Qed.

Lemma merge_into_inv target staging merged :
  merge_into target staging = Return merged ->
  merged = map (update_matched staging) target ++ not_matched target staging
  /\ forallb fits_columns staging = true /\ NoDup (keys staging).
Proof.
  intro H. unfold merge_into in H. fold (keys staging) in H.
  destruct (find (fun s => negb (fits_columns s)) staging) as [s|] eqn:Ef;
    [discriminate |].
  destruct (duplicate_key (keys staging)) as [k|] eqn:E; [discriminate |].
  injection H as <-. split; [reflexivity |].
  split; [now apply find_misfit_none | now apply duplicate_key_none].
Qed.

(** Otherwise it is refused. *)
Lemma merge_into_refused target staging :
  ~ (NoDup (keys staging) /\ forallb fits_columns staging = true) ->
  exists ex, merge_into target staging = Raise ex.
Proof.
  intro H. destruct (merge_into target staging) as [merged|ex] eqn:E.
  - exfalso. apply H. apply merge_into_inv in E as (_ & Hf & Hn). now split.
  - now exists ex.
Qed.

Lemma keys_app (l1 l2 : list row) : keys (l1 ++ l2) = keys l1 ++ keys l2.
Proof. apply map_app. Qed.

Lemma merged_keys_NoDup target staging :
  NoDup (keys target) -> NoDup (keys (not_matched target staging)) ->
  NoDup (keys (map (update_matched staging) target ++ not_matched target staging)).
Proof.
  intros Ht Hs. rewrite keys_app, keys_update_matched.
  apply NoDup_app; [assumption | assumption |].
  intros k Hk Hin. unfold keys in Hin. apply in_map_iff in Hin as (s & <- & Hin).
  now apply in_not_matched in Hin as [_ Hnot].
Qed.

Lemma staged_row_in_merged target staging s :
  NoDup (keys staging) -> In s staging ->
  In s (map (update_matched staging) target ++ not_matched target staging).
Proof.
  intros Hnd Hin. apply in_or_app.
  destruct (has_key (id s) target) eqn:E.
  - left. unfold has_key in E. apply existsb_exists in E as (t & Ht & Hk).
    apply Z.eqb_eq in Hk. apply in_map_iff. exists t. split; [| assumption].
    unfold update_matched, partner. fold (row_of (id t) staging).
    now rewrite Hk, row_of_unique.
  - right. apply in_not_matched. split; [assumption |]. now apply has_key_false.
Qed.

End Merge.

Lemma not_matched_nil (l staging : list row) :
  (forall s, In s staging -> In (id s) (keys l)) -> not_matched l staging = [].
Proof.
  unfold not_matched. induction staging as [|s staging IH]; intro H; cbn; [reflexivity |].
  assert (has_key (id s) l = true) as -> by (apply has_key_true, H; now left).
  cbn. apply IH. intros s' Hs'. apply H. now right.
Qed.

Lemma map_fixed {A : Type} (f : A -> A) (l : list A) :
  (forall x, In x l -> f x = x) -> map f l = l.
Proof.
  induction l as [|a l IH]; intro H; cbn; [reflexivity |].
  rewrite H by now left. f_equal. apply IH. intros x Hx. apply H. now right.
Qed.

(** C4, as the code has it.  Merging a staged CSV whose rows carry
    pairwise distinct ids and values that fit the columns ([id] a bigint,
    [moving_time] a 32-bit int) into the base table, whose rows are
    identified by their id, completes, and in the merged table: every CSV
    row is the row of its id, with all its columns (a row of the table with
    that id is overwritten, a row with an absent id is inserted); the ids of
    the table are all still there, in place, followed by the CSV ids that
    were absent, so no row is deleted; a table row whose id the CSV does not
    carry is unchanged; rows are still identified by their id; and the
    values still fit the columns.  A CSV that carries an id twice or a value
    that does not fit is refused and the table stays as it was.  In
    particular, with a base row id=1 named "Old" and CSV rows id=1 named
    "New" and id=3, the merged table has the row id=1 named "New" and the
    inserted row id=3. *)
Theorem merge_into_upsert (target staging : list row) :
  NoDup (keys target) ->
  (NoDup (keys staging) -> forallb fits_columns staging = true ->
   exists merged,
     merge_into target staging = Return merged
     /\ (forall s, In s staging -> row_of (id s) merged = Some s)
     /\ keys merged
        = keys target ++ keys (filter (fun s => negb (has_key (id s) target)) staging)
     /\ (forall t, In t target -> ~ In (id t) (keys staging) ->
           row_of (id t) merged = Some t)
     /\ NoDup (keys merged)
     /\ (forallb fits_columns target = true -> forallb fits_columns merged = true))
  /\ (~ (NoDup (keys staging) /\ forallb fits_columns staging = true) ->
      exists ex, merge_into target staging = Raise ex
                 /\ table_after target staging = target)
  /\ merge_into [named 1 "Old"] [named 1 "New"; named 3 "Added"]
     = Return [named 1 "New"; named 3 "Added"].
Proof.
  intro Ht. split; [| split].
  - intros Hs Hfit.
    assert (Hins : NoDup (keys (not_matched target staging)))
      by (apply keys_filter_NoDup, Hs).
    assert (Hnd : NoDup (keys (map (update_matched staging) target
                               ++ not_matched target staging)))
      by (apply merged_keys_NoDup; assumption).
    eexists. split; [apply merge_into_completes; now split |].
    split; [| split; [| split; [| split]]].
    + intros s Hin. apply row_of_unique; [assumption |].
      now apply staged_row_in_merged.
    + now rewrite keys_app, keys_update_matched.
    + intros t Hin Hnot. apply row_of_unique; [assumption |].
      apply in_or_app. left. apply in_map_iff. exists t.
      split; [now apply update_matched_no_partner | assumption].
    + assumption.
    + intro Hfit_t. rewrite forallb_forall in *. intros x Hx.
      apply in_app_or in Hx as [Hx | Hx].
      * apply in_map_iff in Hx as (t & <- & Hin). unfold update_matched, partner.
        destruct (find (fun s => id s =? id t) staging) as [s|] eqn:E.
        -- apply find_some in E as [Hs' _]. now apply Hfit.
        -- now apply Hfit_t.
      * apply in_not_matched in Hx as [Hx _]. now apply Hfit.
  - intro Hbad. destruct (merge_into_refused target staging Hbad) as [ex Hex].
    exists ex. split; [exact Hex |]. unfold table_after. now rewrite Hex.
  - reflexivity.
Qed.

(** The merge of the specification's example. *)
Lemma merge_into_upsert_witness :
  exists merged,
    merge_into [named 1 "Old"] [named 1 "New"; named 3 "Added"] = Return merged
    /\ row_of 1 merged = Some (named 1 "New")
    /\ row_of 3 merged = Some (named 3 "Added")
    /\ keys merged = [1; 3].
Proof.
  destruct (merge_into_upsert [named 1 "Old"] [named 1 "New"; named 3 "Added"])
    as (Hdone & _).
  - repeat constructor; cbn; intuition discriminate.
  - destruct Hdone as (merged & Hm & Hrow & Hkeys & _).
    + repeat constructor; cbn; intuition discriminate.
    + reflexivity.
    + exists merged. split; [exact Hm |]. split; [| split].
      * apply (Hrow (named 1 "New")). now left.
      * apply (Hrow (named 3 "Added")). right. now left.
      * exact Hkeys.
Defined.

(** C4 as stated fails: a CSV that carries the absent id 3 on two rows is
    refused by the primary key and neither row is inserted, and a CSV row
    whose moving time is beyond a 32-bit int is refused by the column and not
    inserted. *)
Lemma merge_into_repeated_id :
  merge_into [named 1 "Old"] [named 3 "Added"; named 3 "Again"]
  = Raise (ConstraintError 3)
  /\ row_of 3 (table_after [named 1 "Old"] [named 3 "Added"; named 3 "Again"]) = None
  /\ merge_into [named 1 "Old"] [oversized] = Raise (ConversionError 5)
  /\ row_of 5 (table_after [named 1 "Old"] [oversized]) = None.
Proof.
  repeat split.
Qed.

(** An id of the table staged twice: the statement is refused and the
    row keeps its name. *)
Example merge_into_matched_twice :
  merge_into [named 1 "Old"] [named 1 "New"; named 1 "Newer"]
  = Raise (ConstraintError 1)
  /\ table_after [named 1 "Old"] [named 1 "New"; named 1 "Newer"] = [named 1 "Old"].
Proof. split; reflexivity. Qed.

Lemma merge_into_again (target staging merged : list row) :
  merge_into target staging = Return merged ->
  merge_into merged staging = Return merged.
Proof.
  intro H. apply merge_into_inv in H as (-> & Hfit & Hnd).
  assert (Hins : NoDup (keys (not_matched target staging)))
    by (apply keys_filter_NoDup, Hnd).
  set (merged := map (update_matched staging) target ++ not_matched target staging).
  assert (Hall : forall s, In s staging -> In (id s) (keys merged)).
  { intros s Hin. unfold merged. rewrite keys_app, keys_update_matched.
    apply in_or_app. destruct (has_key (id s) target) eqn:E.
    - left. now apply has_key_true.
    - right. unfold keys. apply in_map. apply in_not_matched.
      split; [assumption | now apply has_key_false]. }
  rewrite (proj1 (merge_into_completes merged staging) (conj Hfit Hnd)).
  rewrite (not_matched_nil merged staging Hall).
  rewrite app_nil_r. apply (f_equal Return). apply map_fixed.
  intros x Hx. unfold merged in Hx. apply in_app_or in Hx as [Hx | Hx].
  - apply in_map_iff in Hx as (t & <- & _). apply update_matched_idem.
  - unfold update_matched, partner.
    destruct (find (fun s => id s =? id x) staging) as [s|] eqn:E; [| reflexivity].
    apply find_some in E as [Hs Hk]. apply Z.eqb_eq in Hk.
    apply in_not_matched in Hx as Hx'. destruct Hx' as [_ Hnot].
    apply (same_key_same_row (not_matched target staging)); try assumption.
    apply in_not_matched. split; [assumption | now rewrite Hk].
Qed.

(** C5.  The loader's merge is idempotent: for every base table and every
    staged CSV, running the merge statement a second time right after the
    first ends as the first did (completed, or refused for the same reason)
    and leaves the table in the state the first left it in, for the
    statement and for the world it runs in. *)
Theorem merge_into_idempotent (staging : list row) :
  (forall target,
     table_after (table_after target staging) staging = table_after target staging
     /\ merge_into (table_after target staging) staging = merge_into target staging)
  /\ (forall w,
        exists out w1,
          execute_merge staging w = Some (out, w1)
          /\ execute_merge staging w1 = Some (out, w1)).
Proof.
  split.
  - intro target. unfold table_after.
    destruct (merge_into target staging) as [merged|ex] eqn:E.
    + now rewrite (merge_into_again _ _ _ E).
    + now rewrite E.
  - intro w. unfold execute_merge.
    destruct (activities_raw w) as [target|] eqn:Et.
    + destruct (merge_into target staging) as [merged|ex] eqn:Em.
      * eexists. eexists. split; [reflexivity |]. cbn [activities_raw log sent cwd].
        now rewrite (merge_into_again _ _ _ Em).
      * eexists. eexists. split; [reflexivity |]. now rewrite Et, Em.
    + eexists. eexists. split; [reflexivity |]. now rewrite Et.
Qed.

(* ================================================================= *)
(** ** Column projection *)

Section Projection.

Variable df : DataFrame.

Lemma mem_string_In (c : string) (l : list string) :
  mem_string c l = true <-> In c l.
Proof.
  unfold mem_string. rewrite existsb_exists. split.
  - intros (x & Hin & Hx). apply String.eqb_eq in Hx. now subst.
  - intro H. exists c. split; [assumption | apply String.eqb_refl].
Qed.

Lemma find_missing_after_filter (f : string -> bool) (l : list string) :
  find (fun c => negb (f c)) (filter f l) = None.
Proof.
  induction l as [|c l IH]; cbn; [reflexivity |].
  destruct (f c) eqn:E; cbn; [now rewrite E |]. assumption.
Qed.

Lemma pick_absent (c : string) :
  mem_string c (columns df) = false -> pick df c = [].
Proof.
  intro H. unfold pick. unfold columns in H.
  induction (data df) as [|col l IH]; cbn in *; [reflexivity |].
  apply orb_false_iff in H as [H1 H2].
  rewrite String.eqb_sym, H1. auto.
Qed.

Lemma flat_map_pick_present (l : list string) :
  flat_map (pick df) (filter (fun c => mem_string c (columns df)) l) = flat_map (pick df) l.
Proof.
  induction l as [|c l IH]; cbn; [reflexivity |].
  destruct (mem_string c (columns df)) eqn:E; cbn.
  - now rewrite IH.
  - now rewrite (pick_absent c E), IH.
Qed.

Lemma filter_pick (c c' : string) :
  filter (fun col : string * list cell => String.eqb (fst col) c) (pick df c')
  = if String.eqb c c' then pick df c else [].
Proof.
  unfold pick. induction (data df) as [|col l IH]; cbn.
  - now destruct (String.eqb c c').
  - destruct (String.eqb (fst col) c') eqn:E1; cbn.
    + apply String.eqb_eq in E1. subst c'. rewrite IH.
      rewrite (String.eqb_sym c (fst col)).
      now destruct (String.eqb (fst col) c).
    + rewrite IH. destruct (String.eqb c c') eqn:E2; [| reflexivity].
      apply String.eqb_eq in E2. subst c'. now rewrite E1.
Qed.

Lemma filter_flat_map_pick (c : string) (l : list string) :
  NoDup l ->
  filter (fun col : string * list cell => String.eqb (fst col) c) (flat_map (pick df) l)
  = if mem_string c l then pick df c else [].
Proof.
  induction l as [|c' l IH]; intro Hnd; cbn; [reflexivity |].
  inversion Hnd as [|? ? Hnot Hnd']. subst.
  rewrite filter_app, filter_pick, (IH Hnd').
  destruct (String.eqb c c') eqn:E; cbn.
  - apply String.eqb_eq in E. subst c'.
    destruct (mem_string c l) eqn:Em; [| apply app_nil_r].
    apply mem_string_In in Em. contradiction.
  - reflexivity.
Qed.

Lemma labels_of_pick (c : string) :
  NoDup (columns df) -> In c (columns df) -> map fst (pick df c) = [c].
Proof.
  unfold pick, columns. induction (data df) as [|col l IH]; cbn; [contradiction |].
  intros Hnd Hin. inversion Hnd as [|? ? Hnot Hnd']. subst.
  destruct (String.eqb (fst col) c) eqn:E; cbn.
  - apply String.eqb_eq in E. subst c. f_equal.
    assert (forall l', ~ In (fst col) (map fst l') ->
              map fst (filter (fun x : string * list cell =>
                                 String.eqb (fst x) (fst col)) l') = []) as Hnone.
    { induction l' as [|x l' IH']; cbn; [reflexivity |]. intro H.
      destruct (String.eqb (fst x) (fst col)) eqn:Ex.
      - apply String.eqb_eq in Ex. exfalso. apply H. now left.
      - apply IH'. intro. apply H. now right. }
    now apply Hnone.
  - apply IH; [assumption |]. destruct Hin as [Hin | Hin]; [| assumption].
    subst c. now rewrite String.eqb_refl in E.
Qed.

Lemma labels_of_flat_map_pick (l : list string) :
  NoDup (columns df) -> (forall c, In c l -> In c (columns df)) ->
  map fst (flat_map (pick df) l) = l.
Proof.
  intros Hnd. induction l as [|c l IH]; intro H; cbn; [reflexivity |].
  rewrite map_app, labels_of_pick; [| assumption | apply H; now left].
  cbn. f_equal. apply IH. intros c' Hc'. apply H. now right.
Qed.

Lemma select_columns_returns :
  select_columns df
  = Return {| index := index df; data := flat_map (pick df) strava_columns_used |}.
Proof.
  unfold select_columns, getitem.
  rewrite find_missing_after_filter. f_equal. f_equal.
  apply flat_map_pick_present.
Qed.

End Projection.

Lemma strava_columns_used_NoDup : NoDup strava_columns_used.
Proof.
  unfold strava_columns_used.
  repeat constructor; cbn; intuition discriminate.
Qed.

Lemma flat_map_ext_in {A B : Type} (f g : A -> list B) (l : list A) :
  (forall a, In a l -> f a = g a) -> flat_map f l = flat_map g l.
Proof.
  induction l as [|a l IH]; intro H; cbn; [reflexivity |].
  rewrite (H a) by now left. f_equal. apply IH. intros x Hx. apply H. now right.
Qed.

(** On a table whose column labels are distinct, the labels of the
    projection are the labels of the fixed list that the table has, in the
    order of the list. *)
Lemma select_columns_labels (df : DataFrame) :
  NoDup (columns df) ->
  columns {| index := index df; data := flat_map (pick df) strava_columns_used |}
  = filter (fun c => mem_string c (columns df)) strava_columns_used.
Proof.
  intro Hnd. unfold columns at 1. cbn [data].
  rewrite <- flat_map_pick_present.
  apply labels_of_flat_map_pick; [assumption |].
  intros c Hc. apply filter_In in Hc as [_ Hc]. now apply mem_string_In.
Qed.

(** Tables built from records have distinct column labels. *)
Lemma add_labels_NoDup (keys seen : list string) :
  NoDup seen -> NoDup (add_labels seen keys).
Proof.
  revert seen. induction keys as [|k keys IH]; intros seen H; cbn; [assumption |].
  apply IH. destruct (mem_string k seen) eqn:E; [assumption |].
  apply NoDup_app; [assumption | repeat constructor; intros [] |].
  intros c Hc [<- | []].
  apply mem_string_In in Hc. congruence.
Qed.

Lemma DataFrame_of_records_columns (records : list record) :
  columns (DataFrame_of_records records) = labels_of records
  /\ NoDup (labels_of records).
Proof.
  split.
  - unfold columns, DataFrame_of_records. cbn [data]. rewrite map_map. cbn [fst].
    apply map_id.
  - unfold labels_of.
    assert (forall seen, NoDup seen ->
              NoDup (fold_left (fun seen r => add_labels seen (map fst r)) records seen))
      as H.
    { induction records as [|r records IH]; intros seen Hs; cbn; [assumption |].
      apply IH. now apply add_labels_NoDup. }
    apply H. constructor.
Qed.

(** C7.  The projector never fails, whatever columns are missing.  It
    returns the columns of the input whose label is in the fixed list [id,
    name, start_date_local, type, distance, moving_time], grouped in the
    order of that list, with the rows of the input; for every table the
    fetcher builds, the labels of the result are exactly the sub-list of the
    fixed list that is present in the input.  Projecting a projected table
    returns it unchanged. *)
Theorem select_columns_idempotent :
  (forall df,
     exists projected,
       select_columns df = Return projected
       /\ data projected = flat_map (pick df) strava_columns_used
       /\ (forall col, In col (data projected) <->
                       In col (data df) /\ In (fst col) strava_columns_used)
       /\ len projected = len df
       /\ select_columns projected = Return projected)
  /\ (forall records,
        exists projected,
          select_columns (DataFrame_of_records records) = Return projected
          /\ columns projected
             = filter (fun c => mem_string c (columns (DataFrame_of_records records)))
                      strava_columns_used).
Proof.
  split.
  - intro df. eexists. split; [apply select_columns_returns |].
    split; [reflexivity |]. split; [| split].
    + intro col. cbn [data]. rewrite in_flat_map. split.
      * intros (c & Hc & Hin). apply filter_In in Hin as [Hin E].
        apply String.eqb_eq in E. subst c. now split.
      * intros [Hin Hc]. exists (fst col). split; [assumption |].
        apply filter_In. split; [assumption | apply String.eqb_refl].
    + reflexivity.
    + rewrite select_columns_returns. cbn [index data]. f_equal. f_equal.
      apply flat_map_ext_in. intros c Hc. unfold pick at 1. cbn [data].
      rewrite (filter_flat_map_pick df c _ strava_columns_used_NoDup).
      now apply mem_string_In in Hc as ->.
  - intro records. eexists. split; [apply select_columns_returns |].
    apply select_columns_labels.
    rewrite (proj1 (DataFrame_of_records_columns records)).
    apply DataFrame_of_records_columns.
Qed.

(** The projection of a fetched table with a column the projector drops
    and four of the six it keeps missing. *)
Example select_columns_sample :
  select_columns sample_table
  = Return {| index := 2;
              data := [("id", [Some (JInt 1); Some (JInt 2)]);
                       ("name", [Some (JStr "Ride"); Some (JStr "Run")])] |}.
Proof. reflexivity. Qed.

(* ================================================================= *)
(** ** Token exchange *)

Lemma get_access_token_unfold (e : env) (w : world) :
  get_access_token e w
  = let response := token_endpoint e (token_form e) in
    let w1 := with_sent (with_log w [(INFO, "Fetching new access token from Strava.")])
                        [POST_token (token_form e)] in
    if status_code response =? 200 then
      match decoded response with
      | Some (JObj fields) =>
          match dict_get fields "access_token" with
          | Some v => Some (Return v, w1)
          | None => Some (Raise (KeyError "access_token"), w1)
          end
      | Some _ => Some (Raise TypeError, w1)
      | None => Some (Raise JSONDecodeError, w1)
      end
    else
      Some (Raise RuntimeError,
            with_log w1 [(ERROR, ("Error fetching access token: " ++ text response)%string)]).
Proof.
  cbv beta iota zeta delta
    [get_access_token bind LOGGER requests_post record_request ret raise
     response_json subscript HTTP_STATUS_OK with_sent with_log token_form].
  cbn [log sent cwd activities_raw].
  match goal with |- context [status_code ?r =? 200] => set (response := r) end.
  destruct (status_code response =? 200); cbn [negb].
  - destruct (decoded response) as [[ |b|n|q|s|items|fields]|]; try reflexivity.
    now destruct (dict_get fields "access_token").
  - reflexivity.
Qed.

(** C8.  The token exchanger returns a value exactly when the token
    endpoint answers with status 200, the value being the [access_token] of
    the JSON object in the response body.  For every other status it logs
    the message "Error fetching access token: " followed by the response
    body, at level ERROR, and then raises [RuntimeError]: no value is
    returned, and nothing but the log and the list of requests sent has
    changed. *)
Theorem get_access_token_spec (e : env) (w : world) :
  let response := token_endpoint e (token_form e) in
  (forall token,
     (exists w', get_access_token e w = Some (Return token, w'))
     <-> (status_code response = 200
          /\ exists fields, decoded response = Some (JObj fields)
                            /\ dict_get fields "access_token" = Some token))
  /\ (status_code response <> 200 ->
      exists w',
        get_access_token e w = Some (Raise RuntimeError, w')
        /\ log w' = log w ++ [(INFO, "Fetching new access token from Strava.");
                              (ERROR, ("Error fetching access token: "
                                       ++ text response)%string)]
        /\ cwd w' = cwd w /\ activities_raw w' = activities_raw w).
Proof.
  intro response. rewrite get_access_token_unfold. fold response. cbv zeta.
  split.
  - intro token. split.
    + intros [w' H]. destruct (status_code response =? 200) eqn:E; [| discriminate].
      apply Z.eqb_eq in E. split; [assumption |].
      destruct (decoded response) as [[ |b|n|q|s|items|fields]|]; try discriminate.
      exists fields. split; [reflexivity |].
      destruct (dict_get fields "access_token"); [| discriminate].
      now injection H as -> _.
    + intros (Hs & fields & Hd & Hk). rewrite Hs, Hd, Hk. cbn. eauto.
  - intro Hs. apply Z.eqb_neq in Hs. rewrite Hs. eexists. split; [reflexivity |].
    cbn [with_log with_sent log cwd activities_raw].
    rewrite <- app_assoc. auto.
Qed.

(** A granted and a denied exchange. *)
Lemma get_access_token_spec_witness :
  (exists w', get_access_token (sample_env {| year := None |} token_ok []) empty_world
              = Some (Return (JStr "abc"), w'))
  /\ (exists w', get_access_token (sample_env {| year := None |} token_denied [])
                                  empty_world
                 = Some (Raise RuntimeError, w')
                 /\ log w' = [(INFO, "Fetching new access token from Strava.");
                              (ERROR, "Error fetching access token: {'message': 'Authorization Error'}")]).
Proof.
  split.
  - apply (proj1 (get_access_token_spec
                    (sample_env {| year := None |} token_ok []) empty_world)
                 (JStr "abc")).
    split; [reflexivity |].
    exists [("token_type", JStr "Bearer"); ("access_token", JStr "abc")].
    split; reflexivity.
  - destruct (proj2 (get_access_token_spec
                       (sample_env {| year := None |} token_denied [])
                       empty_world)) as (w' & H & Hlog & _).
    + vm_compute. discriminate.
    + exists w'. split; [exact H | exact Hlog].
Defined.

(* ================================================================= *)
(** ** Pagination *)

Lemma with_sent_sent (w : world) (l1 l2 : list http_request) :
  with_sent (with_sent w l1) l2 = with_sent w (l1 ++ l2).
Proof.
  unfold with_sent. cbn [log sent cwd activities_raw]. now rewrite app_assoc.
Qed.

(** One turn of the loop. *)
Lemma fetch_pages_step (fuel : nat) (e : env) (token : json) (a b p pp : Z)
    (acc : list record) (w : world) :
  fetch_pages (S fuel) e token a b p pp acc w
  = let r := {| bearer := token; after := a; before := b; page := p; per_page := pp |} in
    let response := activities_endpoint e r in
    let w1 := with_sent w [GET_activities r] in
    if (400 <=? a_status_code response) && (a_status_code response <? 600)
    then Some (Raise (HTTPError (a_status_code response)), w1)
    else match a_json response with
         | [] => Some (Return acc, w1)
         | _ :: _ => fetch_pages fuel e token a b (p + 1) pp (acc ++ a_json response) w1
         end.
Proof.
  cbn [fetch_pages].
  cbv beta iota zeta delta [bind requests_get record_request ret raise raise_for_status
                            with_sent].
  cbn [log sent cwd activities_raw].
  match goal with |- context [a_status_code ?r] => set (response := r) end.
  destruct ((400 <=? a_status_code response) && (a_status_code response <? 600));
    [reflexivity |].
  now destruct (a_json response).
Qed.

Lemma requests_for_cons (token : json) (a b : Z) (first count : nat) :
  requests_for token a b first (S count)
  = GET_activities {| bearer := token; after := a; before := b;
                      page := Z.of_nat first; per_page := 200 |}
    :: requests_for token a b (S first) count.
Proof. reflexivity. Qed.

Lemma ceil_div_200_zero (n : nat) : ceil_div n 200 = 0%nat <-> n = 0%nat.
Proof.
  unfold ceil_div. split; intro H.
  - destruct n as [|n]; [reflexivity |]. exfalso.
    assert (200 <= S n + 200 - 1)%nat as Hle by lia.
    apply (Nat.Div0.div_le_mono _ _ 200) in Hle.
    rewrite Nat.div_same in Hle by lia. lia.
  - subst. reflexivity.
Qed.

Lemma ceil_div_200_step (n : nat) :
  (0 < n)%nat -> ceil_div n 200 = S (ceil_div (n - 200) 200).
Proof.
  intro H. unfold ceil_div.
  destruct (Nat.le_gt_cases 200 n) as [Hge | Hlt].
  - replace (n + 200 - 1)%nat with ((n - 200 + 200 - 1) + 1 * 200)%nat by lia.
    rewrite Nat.div_add by lia. lia.
  - replace (n - 200)%nat with 0%nat by lia.
    replace (n + 200 - 1)%nat with ((n - 1) + 1 * 200)%nat by lia.
    rewrite Nat.div_add by lia.
    rewrite (Nat.div_small (n - 1) 200) by lia. reflexivity.
Qed.

Lemma serve_page_json (records : list record) (token : json) (a b : Z) (k : nat) :
  a_json (serve_page records {| bearer := token; after := a; before := b;
                                page := Z.of_nat (S k); per_page := 200 |})
  = firstn 200 (skipn (k * 200) records).
Proof.
  unfold serve_page. cbn [a_json page per_page].
  replace (Z.to_nat ((Z.of_nat (S k) - 1) * 200)) with (k * 200)%nat by lia.
  reflexivity.
Qed.

Lemma serve_page_status (records : list record) (r : activities_request) :
  a_status_code (serve_page records r) = 200.
Proof. reflexivity. Qed.

Section ServedRecords.

Variables (records : list record) (e : env) (token : json) (a b : Z).
Hypothesis served : activities_endpoint e = serve_page records.

(** From page [k + 1] on, the loop collects what is left of the records
    and sends one request per page that holds records, and one more. *)
Lemma fetch_pages_served (n : nat) :
  forall (k : nat) (acc : list record) (w : world) (fuel : nat),
    ceil_div (List.length (skipn (k * 200) records)) 200 = n ->
    (n < fuel)%nat ->
    fetch_pages fuel e token a b (Z.of_nat (S k)) 200 acc w
    = Some (Return (acc ++ skipn (k * 200) records),
            with_sent w (requests_for token a b (S k) (S n))).
Proof.
  induction n as [|n IH]; intros k acc w fuel Hn Hfuel.
  - destruct fuel as [|fuel]; [lia |].
    rewrite fetch_pages_step. cbv zeta. rewrite served.
    rewrite !serve_page_status, !serve_page_json.
    change ((400 <=? 200) && (200 <? 600)) with false. cbv iota.
    apply ceil_div_200_zero, length_zero_iff_nil in Hn.
    rewrite Hn, firstn_nil, app_nil_r. reflexivity.
  - destruct fuel as [|fuel]; [lia |].
    rewrite fetch_pages_step. cbv zeta. rewrite served.
    rewrite !serve_page_status, !serve_page_json.
    change ((400 <=? 200) && (200 <? 600)) with false. cbv iota.
    set (rest := skipn (k * 200) records) in *.
    assert (Hpos : (0 < List.length rest)%nat).
    { destruct (Nat.eq_dec (List.length rest) 0) as [E | E]; [| lia].
      rewrite E, (proj2 (ceil_div_200_zero 0) eq_refl) in Hn. discriminate. }
    assert (Hrest : skipn (S k * 200) records = skipn 200 rest).
    { unfold rest. rewrite skipn_skipn. f_equal; lia. }
    destruct (firstn 200 rest) as [|x page1] eqn:Efirst.
    + exfalso. apply (f_equal (@List.length record)) in Efirst.
      rewrite length_firstn in Efirst. cbn [List.length] in Efirst. lia.
    + rewrite <- Efirst.
      replace (Z.of_nat (S k) + 1) with (Z.of_nat (S (S k))) by lia.
      rewrite (IH (S k) _ _ fuel).
      * rewrite Hrest, <- app_assoc, firstn_skipn, with_sent_sent.
        now rewrite (requests_for_cons token a b (S k) (S n)).
      * rewrite Hrest, length_skipn.
        rewrite ceil_div_200_step in Hn by assumption. lia.
      * lia.
Qed.

End ServedRecords.

Lemma page_requests_app (l1 l2 : list http_request) :
  page_requests (l1 ++ l2) = page_requests l1 ++ page_requests l2.
Proof. apply flat_map_app. Qed.

Lemma page_requests_requests_for (token : json) (a b : Z) (first count : nat) :
  List.length (page_requests (requests_for token a b first count)) = count.
Proof.
  unfold requests_for. revert first.
  induction count as [|count IH]; intro first; cbn; [reflexivity |].
  now rewrite IH.
Qed.

(** The whole fetch against an API that holds [records]. *)
Lemma fetch_activities_served (records : list record) (e : env)
    (token : json) (year_ : option Z) (after_ before_ : Z) (w : world) (fuel : nat) :
  activities_endpoint e = serve_page records ->
  fetch_window (clock_us e) year_ = Return (after_, before_) ->
  (ceil_div (List.length records) 200 + 1 <= fuel)%nat ->
  fetch_activities fuel e token year_ w
  = Some (Return (DataFrame_of_records records),
          with_sent w (requests_for token after_ before_ 1
                                    (ceil_div (List.length records) 200 + 1))).
Proof.
  intros Hserved Hwindow Hfuel.
  unfold fetch_activities, bind, lift. rewrite Hwindow.
  change 1 with (Z.of_nat 1).
  rewrite (fetch_pages_served records e token after_ before_ Hserved
             (ceil_div (List.length records) 200) 0 [] w fuel);
    [| reflexivity | lia].
  cbn [skipn Nat.mul app ret].
  now rewrite Nat.add_1_r.
Qed.

(** C2, as the code has it.  When the source API holds T records and
    serves them in pages of 200, the fetcher, given fuel for that many
    turns, returns the table of all T records after exactly ceil(T/200) + 1
    page requests, for pages 1, 2, ..., ceil(T/200) + 1 in this order: one
    request per page that holds records and the request that comes back
    empty, whether or not T is a multiple of 200. *)
Theorem fetch_activities_page_requests (records : list record) (e : env)
    (token : json) (year_ : option Z) (after_ before_ : Z) (w : world) (fuel : nat) :
  activities_endpoint e = serve_page records ->
  fetch_window (clock_us e) year_ = Return (after_, before_) ->
  (ceil_div (List.length records) 200 + 1 <= fuel)%nat ->
  exists w',
    fetch_activities fuel e token year_ w
    = Some (Return (DataFrame_of_records records), w')
    /\ sent w' = sent w ++ requests_for token after_ before_ 1
                                        (ceil_div (List.length records) 200 + 1)
    /\ List.length (page_requests (sent w'))
       = (List.length (page_requests (sent w))
          + (ceil_div (List.length records) 200 + 1))%nat.
Proof.
  intros Hserved Hwindow Hfuel.
  exists (with_sent w (requests_for token after_ before_ 1
                         (ceil_div (List.length records) 200 + 1))).
  split; [| split].
  - now apply fetch_activities_served.
  - reflexivity.
  - cbn [with_sent sent]. rewrite page_requests_app, length_app.
    now rewrite page_requests_requests_for.
Qed.

(** 250 records: three page requests. *)
Lemma fetch_activities_page_requests_witness :
  exists w',
    fetch_activities 3 (sample_env {| year := None |} token_ok (sample_records 250))
                     (JStr "abc") None empty_world
    = Some (Return (DataFrame_of_records (sample_records 250)), w')
    /\ List.length (page_requests (sent w')) = 3%nat.
Proof.
  destruct (fetch_activities_page_requests
              (sample_records 250)
              (sample_env {| year := None |} token_ok (sample_records 250))
              (JStr "abc") None 1761696000 1762300800 empty_world 3)
    as (w' & Hrun & _ & Hcount).
  - reflexivity.
  - reflexivity.
  - vm_compute. apply le_n.
  - exists w'. split; [exact Hrun |]. rewrite Hcount. vm_compute. reflexivity.
Defined.

(** C2 as stated fails: for 250 records, not a multiple of 200, the
    specification gives ceil(250/200) = 2 page requests; the fetcher sends
    3. *)
Lemma fetch_activities_250_records :
  option_map (fun out => List.length (page_requests (sent (snd out))))
             (fetch_activities 3
                (sample_env {| year := None |} token_ok (sample_records 250))
                (JStr "abc") None empty_world)
  = Some 3%nat
  /\ specified_page_requests 250 = 2%nat.
Proof.
  split; vm_compute; reflexivity.
Qed.

(* ================================================================= *)
(** ** What a run leaves behind *)

Lemma dict_get_write_file_same (path : string) (content : csv)
    (files : list (string * csv)) :
  dict_get (write_file path content files) path = Some content.
Proof.
  induction files as [|[p c] files IH]; cbn.
  - now rewrite String.eqb_refl.
  - destruct (String.eqb p path) eqn:E; cbn.
    + now rewrite String.eqb_refl.
    + now rewrite E.
Qed.

Lemma dict_get_write_file_other (path other : string) (content : csv)
    (files : list (string * csv)) :
  other <> path ->
  dict_get (write_file path content files) other = dict_get files other.
Proof.
  intro Hne. induction files as [|[p c] files IH]; cbn.
  - destruct (String.eqb path other) eqn:E; [| reflexivity].
    apply String.eqb_eq in E. congruence.
  - destruct (String.eqb p path) eqn:E; cbn.
    + apply String.eqb_eq in E. subst p.
      destruct (String.eqb path other) eqn:E'; [| reflexivity].
      apply String.eqb_eq in E'. congruence.
    + now rewrite IH.
Qed.

(** The loop changes nothing but the list of requests sent, and every
    request it sends carries the window it was given. *)
Lemma fetch_pages_effect (fuel : nat) (e : env) (token : json) (a b pp : Z) :
  forall (p : Z) (acc : list record) (w : world) (out : result (list record)) (w' : world),
    fetch_pages fuel e token a b p pp acc w = Some (out, w') ->
    log w' = log w /\ cwd w' = cwd w /\ activities_raw w' = activities_raw w
    /\ exists more,
         sent w' = sent w ++ more
         /\ forall r, In r (page_requests more) -> after r = a /\ before r = b.
Proof.
  induction fuel as [|fuel IH]; intros p acc w out w' H; [discriminate |].
  rewrite fetch_pages_step in H. cbv zeta in H.
  set (r := {| bearer := token; after := a; before := b; page := p; per_page := pp |}) in *.
  assert (Hone : forall q, In q (page_requests [GET_activities r]) ->
                           after q = a /\ before q = b).
  { intros q [<- | []]. now split. }
  destruct ((400 <=? a_status_code (activities_endpoint e r))
            && (a_status_code (activities_endpoint e r) <? 600)).
  { injection H as <- <-. repeat split. now exists [GET_activities r]. }
  destruct (a_json (activities_endpoint e r)) as [|x rest].
  { injection H as <- <-. repeat split. now exists [GET_activities r]. }
  apply IH in H as (Hlog & Hcwd & Hraw & more & Hsent & Hmore).
  repeat split; try assumption.
  exists (GET_activities r :: more). split.
  - rewrite Hsent. cbn [with_sent sent]. now rewrite <- app_assoc.
  - intros q [<- | Hq]; [now split | now apply Hmore].
Qed.

Lemma fetch_activities_inv (fuel : nat) (e : env) (token : json) (year_ : option Z)
    (w : world) (df : DataFrame) (w' : world) :
  fetch_activities fuel e token year_ w = Some (Return df, w') ->
  exists after_ before_ records,
    fetch_window (clock_us e) year_ = Return (after_, before_)
    /\ fetch_pages fuel e token after_ before_ 1 200 [] w = Some (Return records, w')
    /\ df = DataFrame_of_records records.
Proof.
  unfold fetch_activities, bind, lift, ret.
  destruct (fetch_window (clock_us e) year_) as [[after_ before_]|ex]; [| discriminate].
  destruct (fetch_pages fuel e token after_ before_ 1 200 [] w)
    as [[[records|ex] w1]|] eqn:E; try discriminate.
  intro H. injection H as <- <-. now exists after_, before_, records.
Qed.

(** C10.  When the fetcher returns a table of zero records, the table has
    no columns; the projector then returns the table with no rows and no
    columns, not the six columns of its list; and the CSV written from it,
    under whatever path, has no header field and no line. *)
Theorem fetch_activities_no_records (fuel : nat) (e : env) (token : json)
    (year_ : option Z) (w : world) (df : DataFrame) (w' : world) (path : string) :
  fetch_activities fuel e token year_ w = Some (Return df, w') ->
  len df = 0%nat ->
  columns df = []
  /\ select_columns df = Return {| index := 0; data := [] |}
  /\ columns {| index := 0; data := [] |} <> strava_columns_used
  /\ exists w'',
       to_csv {| index := 0; data := [] |} path w' = Some (Return tt, w'')
       /\ dict_get (cwd w'') path = Some {| header := []; lines := [] |}.
Proof.
  intros Hfetch Hlen.
  apply fetch_activities_inv in Hfetch as (after_ & before_ & records & _ & _ & ->).
  unfold len in Hlen. cbn [DataFrame_of_records index] in Hlen.
  apply length_zero_iff_nil in Hlen. subst records.
  split; [reflexivity |]. split; [reflexivity |]. split; [discriminate |].
  eexists. split; [reflexivity |].
  cbn [cwd]. apply dict_get_write_file_same.
Qed.

(** A run over seven days without activities. *)
Lemma fetch_activities_no_records_witness :
  exists df w',
    fetch_activities 1 (sample_env {| year := None |} token_ok []) (JStr "abc") None
                     empty_world
    = Some (Return df, w')
    /\ len df = 0%nat
    /\ select_columns df = Return {| index := 0; data := [] |}
    /\ exists w'',
         to_csv {| index := 0; data := [] |} "activities_last_7_days.csv" w'
         = Some (Return tt, w'')
         /\ dict_get (cwd w'') "activities_last_7_days.csv"
            = Some {| header := []; lines := [] |}.
Proof.
  assert (Hrun : fetch_activities 1 (sample_env {| year := None |} token_ok [])
                                  (JStr "abc") None empty_world
                 = Some (Return (DataFrame_of_records []),
                         with_sent empty_world
                                   (requests_for (JStr "abc") 1761696000 1762300800 1 1)))
    by reflexivity.
  destruct (fetch_activities_no_records
              1 (sample_env {| year := None |} token_ok []) (JStr "abc") None
              empty_world _ _ "activities_last_7_days.csv" Hrun eq_refl)
    as (_ & Hselect & _ & Hwritten).
  eexists. eexists. split; [exact Hrun |]. split; [reflexivity |].
  split; [exact Hselect | exact Hwritten].
Defined.

Lemma bind_inv {A B : Type} (m : M A) (k : A -> M B) (w w' : world) (b : B) :
  bind m k w = Some (Return b, w') ->
  exists x w1, m w = Some (Return x, w1) /\ k x w1 = Some (Return b, w').
Proof.
  unfold bind. destruct (m w) as [[[x|ex] w1]|]; try discriminate.
  intro H. now exists x, w1.
Qed.

Lemma get_access_token_effect (e : env) (w : world) (out : result json) (w' : world) :
  get_access_token e w = Some (out, w') ->
  cwd w' = cwd w /\ activities_raw w' = activities_raw w
  /\ sent w' = sent w ++ [POST_token (token_form e)].
Proof.
  rewrite get_access_token_unfold. cbv zeta.
  destruct (status_code (token_endpoint e (token_form e)) =? 200).
  - destruct (decoded (token_endpoint e (token_form e)))
      as [[ |b|n|q|s|items|fields]|];
      try (intro H; injection H as <- <-; now repeat split).
    destruct (dict_get fields "access_token");
      intro H; injection H as <- <-; now repeat split.
  - intro H. injection H as <- <-. now repeat split.
Qed.

Lemma fetch_pages_with_argv (fuel : nat) (e : env) (args : Namespace) (token : json)
    (a b pp : Z) :
  forall (p : Z) (acc : list record) (w : world),
    fetch_pages fuel (with_argv e args) token a b p pp acc w
    = fetch_pages fuel e token a b p pp acc w.
Proof.
  induction fuel as [|fuel IH]; intros p acc w; [reflexivity |].
  rewrite !fetch_pages_step. cbv zeta. cbn [with_argv activities_endpoint].
  destruct (_ && _); [reflexivity |].
  destruct (a_json _); [reflexivity | apply IH].
Qed.

Lemma upsert_files_with_argv (e : env) (args : Namespace) (files : list (string * csv)) :
  forall w, upsert_files (with_argv e args) files w = upsert_files e files w.
Proof.
  induction files as [|f files IH]; intro w; [reflexivity |].
  cbn [upsert_files]. unfold bind, stage. cbn [with_argv read_csv_auto].
  destruct (read_csv_auto e (snd f)) as [staged|]; [| reflexivity].
  unfold ret. destruct (execute_merge staged w) as [[[[] | ex] w1]|]; try reflexivity.
  unfold LOGGER. apply IH.
Qed.

Lemma download_last_7_days_with_argv (fuel : nat) (e : env) (args : Namespace)
    (w : world) :
  download_last_7_days fuel (with_argv e args) w = download_last_7_days fuel e w.
Proof.
  unfold download_last_7_days, bind.
  destruct (LOGGER INFO _ w) as [[[[] | ex] w0]|]; try reflexivity.
  change (get_access_token (with_argv e args) w0) with (get_access_token e w0).
  destruct (get_access_token e w0) as [[[token | ex] w1]|]; try reflexivity.
  unfold fetch_activities, bind, lift. cbn [with_argv clock_us].
  destruct (fetch_window (clock_us e) None) as [[after_ before_]|ex]; [| reflexivity].
  now rewrite fetch_pages_with_argv.
Qed.

(** The else-branch of [main]: what it sends and what it writes. *)
Lemma download_last_7_days_effect (fuel : nat) (e : env) (w w1 : world) :
  download_last_7_days fuel e w = Some (Return tt, w1) ->
  (exists more,
     sent w1 = sent w ++ more
     /\ forall r, In r (page_requests more) ->
                  after r = int_timestamp (clock_us e - seven_days_us)
                  /\ before r = int_timestamp (clock_us e))
  /\ exists content,
       cwd w1 = write_file "activities_last_7_days.csv" content (cwd w).
Proof.
  unfold download_last_7_days. intro H.
  apply bind_inv in H as ([] & w0 & Hlog0 & H).
  apply bind_inv in H as (token & w2 & Htoken & H).
  apply bind_inv in H as (df & w3 & Hfetch & H).
  apply bind_inv in H as (clean & w4 & Hselect & H).
  apply bind_inv in H as ([] & w5 & Hlog5 & H).
  unfold LOGGER in Hlog0, Hlog5. injection Hlog0 as <-. injection Hlog5 as <-.
  unfold lift in Hselect. injection Hselect as Hselect <-.
  unfold to_csv in H. injection H as <-. cbn [sent cwd log activities_raw].
  apply get_access_token_effect in Htoken as (Hcwd2 & _ & Hsent2).
  apply fetch_activities_inv in Hfetch as (after_ & before_ & records & Hwin & Hpages & _).
  apply fetch_pages_effect in Hpages as (_ & Hcwd3 & _ & more & Hsent3 & Hmore).
  cbn [fetch_window] in Hwin. injection Hwin as <- <-.
  cbn [sent cwd] in Hcwd2, Hsent2. split.
  - exists (POST_token (token_form e) :: more). split.
    + rewrite Hsent3, Hsent2. now rewrite <- app_assoc.
    + intros r Hr. apply Hmore. exact Hr.
  - exists (csv_of clean). now rewrite Hcwd3, Hcwd2.
Qed.

(** With a token granted and an API that holds finitely many records,
    the else-branch of [main] runs to its end, given fuel for the pages. *)
Lemma download_last_7_days_returns (fuel : nat) (e : env) (w : world)
    (records : list record) (fields : list (string * json)) (token : json) :
  status_code (token_endpoint e (token_form e)) = 200 ->
  decoded (token_endpoint e (token_form e)) = Some (JObj fields) ->
  dict_get fields "access_token" = Some token ->
  activities_endpoint e = serve_page records ->
  (ceil_div (List.length records) 200 + 1 <= fuel)%nat ->
  exists w1 projected,
    download_last_7_days fuel e w = Some (Return tt, w1)
    /\ select_columns (DataFrame_of_records records) = Return projected
    /\ cwd w1 = write_file "activities_last_7_days.csv" (csv_of projected) (cwd w).
Proof.
  intros Hs Hd Hk Hserved Hfuel.
  set (w0 := with_log w [(INFO, "No year specified, download activities from last 7 days only.")]).
  assert (Htoken : exists w2, get_access_token e w0 = Some (Return token, w2)
                              /\ cwd w2 = cwd w).
  { rewrite get_access_token_unfold. cbv zeta. rewrite Hs, Hd, Hk. cbn [Z.eqb Pos.eqb].
    eexists. split; reflexivity. }
  destruct Htoken as (w2 & Htoken & Hcwd2).
  pose proof (fetch_activities_served
                records e token None
                (int_timestamp (clock_us e - seven_days_us)) (int_timestamp (clock_us e))
                w2 fuel Hserved eq_refl Hfuel) as Hfetch.
  set (w3 := with_sent w2 _) in Hfetch.
  assert (Hcwd3 : cwd w3 = cwd w2) by reflexivity.
  pose proof (select_columns_returns (DataFrame_of_records records)) as Hselect.
  eexists. eexists. split; [| split; [exact Hselect |]].
  - assert (Hlog0 : LOGGER INFO "No year specified, download activities from last 7 days only." w
                    = Some (Return tt, w0)) by reflexivity.
    unfold download_last_7_days. unfold bind at 1. rewrite Hlog0.
    unfold bind at 1. rewrite Htoken.
    unfold bind at 1. rewrite Hfetch.
    unfold bind at 1, lift. rewrite Hselect.
    unfold bind, LOGGER, to_csv. reflexivity.
  - cbn [cwd]. now rewrite Hcwd3, Hcwd2.
Qed.

(** C9.  A run with [--year 0] is the run without a year: [main] takes
    its else-branch.  Whenever that branch runs to its end, the page
    requests it has sent carry the trailing seven-day window and the file it
    has written is activities_last_7_days.csv, while activities_0.csv is left
    as it was; and it does run to its end when the token is granted and the
    API holds finitely many records. *)
Theorem main_year_zero (fuel : nat) (e : env) (w : world) :
  year (argv e) = Some 0 ->
  main fuel e w = main fuel (with_argv e {| year := None |}) w
  /\ main fuel e w
     = (download_last_7_days fuel e ;; setup_duckdb ;; upsert_duckdb_activities e) w
  /\ (forall w1,
       download_last_7_days fuel e w = Some (Return tt, w1) ->
       (exists more,
          sent w1 = sent w ++ more
          /\ forall r, In r (page_requests more) ->
                       after r = int_timestamp (clock_us e - seven_days_us)
                       /\ before r = int_timestamp (clock_us e))
       /\ (exists content,
             dict_get (cwd w1) "activities_last_7_days.csv" = Some content)
       /\ dict_get (cwd w1) "activities_0.csv" = dict_get (cwd w) "activities_0.csv")
  /\ (forall records fields token,
        status_code (token_endpoint e (token_form e)) = 200 ->
        decoded (token_endpoint e (token_form e)) = Some (JObj fields) ->
        dict_get fields "access_token" = Some token ->
        activities_endpoint e = serve_page records ->
        (ceil_div (List.length records) 200 + 1 <= fuel)%nat ->
        exists w1, download_last_7_days fuel e w = Some (Return tt, w1)).
Proof.
  intro Hyear.
  assert (Hmain : main fuel e w
                  = (download_last_7_days fuel e ;; setup_duckdb ;;
                     upsert_duckdb_activities e) w).
  { unfold main at 1, parse_args. unfold bind at 1, ret at 1.
    rewrite Hyear. reflexivity. }
  split; [| split; [exact Hmain | split]].
  - rewrite Hmain. unfold main, parse_args. unfold bind at 3, ret at 1.
    cbn [with_argv argv year truthy].
    unfold bind. rewrite download_last_7_days_with_argv.
    destruct (download_last_7_days fuel e w) as [[[[] | ex] w1]|]; try reflexivity.
    destruct (setup_duckdb w1) as [[[[] | ex] w2]|]; try reflexivity.
    unfold upsert_duckdb_activities. symmetry. apply upsert_files_with_argv.
  - intros w1 H. apply download_last_7_days_effect in H as [Hsent [content Hcwd]].
    split; [exact Hsent |]. split.
    + exists content. rewrite Hcwd. apply dict_get_write_file_same.
    + rewrite Hcwd. apply dict_get_write_file_other. discriminate.
  - intros records fields token Hs Hd Hk Hserved Hfuel.
    destruct (download_last_7_days_returns fuel e w records fields token
                Hs Hd Hk Hserved Hfuel) as (w1 & _ & H & _).
    now exists w1.
Qed.

(** A run with [--year 0] over two activities. *)
Lemma main_year_zero_witness :
  main 2 year_zero_env empty_world
  = main 2 (with_argv year_zero_env {| year := None |}) empty_world
  /\ exists w1,
       download_last_7_days 2 year_zero_env empty_world = Some (Return tt, w1)
       /\ (exists content,
             dict_get (cwd w1) "activities_last_7_days.csv" = Some content)
       /\ dict_get (cwd w1) "activities_0.csv" = None.
Proof.
  destruct (main_year_zero 2 year_zero_env empty_world eq_refl)
    as (Hsame & _ & Heffect & Hreturns).
  split; [exact Hsame |].
  destruct (Hreturns (sample_records 2)
                     [("token_type", JStr "Bearer"); ("access_token", JStr "abc")]
                     (JStr "abc") eq_refl eq_refl eq_refl eq_refl)
    as [w1 Hrun].
  - vm_compute. apply le_n.
  - destruct (Heffect w1 Hrun) as (_ & Hfile & Hother).
    exists w1. split; [exact Hrun |]. split; [exact Hfile |].
    rewrite Hother. reflexivity.
Defined.

(* ================================================================= *)
(** ** Two runs from end to end *)

(** A run without a year: two activities are fetched with three requests
    after the token exchange, written to activities_last_7_days.csv, and the
    staged rows are merged into the table. *)
Example main_run :
  option_map
    (fun out => (fst out,
                 List.length (sent (snd out)),
                 cwd (snd out),
                 activities_raw (snd out),
                 log (snd out)))
    (main 2 loader_env loaded_world)
  = Some (Return tt,
          3%nat,
          [("activities_last_7_days.csv",
            {| header := ["id"; "name"];
               lines := [[Some (JInt 1); Some (JStr "Ride")];
                         [Some (JInt 2); Some (JStr "Ride")]] |})],
          Some [named 1 "New"; named 3 "Added"],
          [(INFO, "No year specified, download activities from last 7 days only.");
           (INFO, "Fetching new access token from Strava.");
           (INFO, "Downloaded 2 activities");
           (INFO, "Uploaded activities_last_7_days.csv to DuckDB.")]).
Proof. vm_compute. reflexivity. Qed.

(** A run for the year 2024 against an API without activities: the CSV
    has neither header nor lines. *)
Example main_run_without_activities :
  option_map
    (fun out => cwd (snd out))
    (download_year 1 (sample_env {| year := Some 2024 |} token_ok [])
                   {| year := Some 2024 |} empty_world)
  = Some [("activities_2024.csv", {| header := []; lines := [] |})].
Proof. vm_compute. reflexivity. Qed.

(* ================================================================= *)
(** * Further properties of the code *)

(* ================================================================= *)
(** ** The page loop against any API *)

Lemma requests_for_page_request (token : json) (a b : Z) (first count : nat) :
  requests_for token a b first count
  = map (fun k => GET_activities (page_request token a b k)) (seq first count).
Proof. reflexivity. Qed.

Lemma requests_for_snoc (token : json) (a b : Z) (first count : nat) :
  requests_for token a b first count
  ++ [GET_activities (page_request token a b (first + count))]
  = requests_for token a b first (S count).
Proof.
  rewrite !requests_for_page_request.
  replace (S count) with (count + 1)%nat by lia. now rewrite seq_app, map_app.
Qed.

(** [n] pages in a row after which the loop goes on. *)
Lemma fetch_pages_go_on (e : env) (token : json) (a b : Z) (n : nat) :
  forall (k : nat) (acc : list record) (w : world) (fuel : nat),
    (forall j, (k <= j < k + n)%nat -> goes_on (page_answer e token a b j) = true) ->
    fetch_pages (n + fuel) e token a b (Z.of_nat k) 200 acc w
    = fetch_pages fuel e token a b (Z.of_nat (k + n)) 200
                  (acc ++ collected e token a b k n)
                  (with_sent w (requests_for token a b k n)).
Proof.
  induction n as [|n IH]; intros k acc w fuel Hgo.
  - cbn [Nat.add]. rewrite Nat.add_0_r. unfold collected, requests_for, with_sent.
    cbn [seq flat_map map]. rewrite !app_nil_r. now destruct w.
  - cbn [Nat.add]. rewrite fetch_pages_step. cbv zeta.
    fold (page_request token a b k). fold (page_answer e token a b k).
    pose proof (Hgo k ltac:(lia)) as Hk. unfold goes_on in Hk.
    apply andb_true_iff in Hk as [Hok Hsome].
    apply negb_true_iff in Hok. unfold is_http_error in Hok. rewrite Hok.
    destruct (a_json (page_answer e token a b k)) as [|x rest] eqn:Ej; [discriminate |].
    replace (Z.of_nat k + 1) with (Z.of_nat (S k)) by lia.
    rewrite (IH (S k)) by (intros j Hj; apply Hgo; lia).
    replace (S k + n)%nat with (k + S n)%nat by lia.
    rewrite with_sent_sent. f_equal.
    unfold collected. cbn [seq flat_map]. rewrite Ej. now rewrite <- app_assoc.
Qed.

Lemma fetch_activities_window (fuel : nat) (e : env) (token : json) (year_ : option Z)
    (a b : Z) (w : world) :
  fetch_window (clock_us e) year_ = Return (a, b) ->
  fetch_activities fuel e token year_ w
  = (all_activities <- fetch_pages fuel e token a b 1 200 [] ;;
     ret (DataFrame_of_records all_activities)) w.
Proof.
  intro H. unfold fetch_activities. unfold bind at 1, lift. now rewrite H.
Qed.

(** X1.  Against any API: when the first [n] pages each come back
    without error status and with records, and page [n + 1] comes back
    without error status and empty, the fetcher, given fuel for [n + 1]
    turns, returns the table of the records of pages 1 to [n], in page
    order, after exactly the requests for pages 1, 2, ..., [n + 1], each with
    [per_page] 200, the same window and the same token. *)
Theorem fetch_activities_until_empty (e : env) (token : json) (year_ : option Z)
    (a b : Z) (w : world) (n fuel : nat) :
  fetch_window (clock_us e) year_ = Return (a, b) ->
  (forall j, (1 <= j <= n)%nat -> goes_on (page_answer e token a b j) = true) ->
  is_last (page_answer e token a b (S n)) = true ->
  (n < fuel)%nat ->
  fetch_activities fuel e token year_ w
  = Some (Return (DataFrame_of_records (collected e token a b 1 n)),
          with_sent w (requests_for token a b 1 (S n))).
Proof.
  intros Hwin Hgo Hlast Hfuel.
  rewrite (fetch_activities_window _ _ _ _ a b _ Hwin). unfold bind.
  destruct fuel as [|fuel]; [lia |].
  replace (S fuel) with (n + S (fuel - n))%nat by lia.
  change 1 with (Z.of_nat 1).
  rewrite fetch_pages_go_on by (intros j Hj; apply Hgo; lia).
  rewrite fetch_pages_step. cbv zeta.
  fold (page_request token a b (1 + n)). fold (page_answer e token a b (1 + n)).
  unfold is_last in Hlast. apply andb_true_iff in Hlast as [Hok Hnone].
  apply negb_true_iff in Hok. unfold is_http_error in Hok.
  cbn [Nat.add]. rewrite Hok.
  destruct (a_json (page_answer e token a b (S n))); [| discriminate].
  rewrite with_sent_sent. change (S n) with (1 + n)%nat at 1.
  rewrite requests_for_snoc. reflexivity.
Qed.

(** Two pages of one activity, then an empty page. *)
Lemma fetch_activities_until_empty_witness :
  fetch_activities 3 (api_env (serve_page (sample_records 2))) (JStr "abc") None
                   empty_world
  = Some (Return (DataFrame_of_records (sample_records 2)),
          with_sent empty_world
                    (requests_for (JStr "abc") 1761696000 1762300800 1 2)).
Proof.
  rewrite (fetch_activities_until_empty
             (api_env (serve_page (sample_records 2))) (JStr "abc") None
             1761696000 1762300800 empty_world 1 3).
  - reflexivity.
  - reflexivity.
  - intros j Hj. assert (j = 1%nat) as -> by lia. reflexivity.
  - reflexivity.
  - repeat constructor.
Defined.

(** X2.  Against any API: when the first [n] pages come back without
    error status and with records, and page [n + 1] comes back with a status
    from 400 to 599, the fetcher raises [HTTPError] with that status after
    the requests for pages 1 to [n + 1]; the records of the pages before are
    not returned. *)
Theorem fetch_activities_http_error (e : env) (token : json) (year_ : option Z)
    (a b : Z) (w : world) (n fuel : nat) :
  fetch_window (clock_us e) year_ = Return (a, b) ->
  (forall j, (1 <= j <= n)%nat -> goes_on (page_answer e token a b j) = true) ->
  is_http_error (page_answer e token a b (S n)) = true ->
  (n < fuel)%nat ->
  fetch_activities fuel e token year_ w
  = Some (Raise (HTTPError (a_status_code (page_answer e token a b (S n)))),
          with_sent w (requests_for token a b 1 (S n))).
Proof.
  intros Hwin Hgo Hbad Hfuel.
  rewrite (fetch_activities_window _ _ _ _ a b _ Hwin). unfold bind.
  destruct fuel as [|fuel]; [lia |].
  replace (S fuel) with (n + S (fuel - n))%nat by lia.
  change 1 with (Z.of_nat 1).
  rewrite fetch_pages_go_on by (intros j Hj; apply Hgo; lia).
  rewrite fetch_pages_step. cbv zeta.
  fold (page_request token a b (1 + n)). fold (page_answer e token a b (1 + n)).
  unfold is_http_error in Hbad. cbn [Nat.add]. rewrite Hbad.
  rewrite with_sent_sent. change (S n) with (1 + n)%nat at 2.
  rewrite requests_for_snoc. reflexivity.
Qed.

(** Two pages of one activity each, then status 503 on page 3. *)
Lemma fetch_activities_http_error_witness :
  fetch_activities 5 (api_env (one_per_page_but 3)) (JStr "abc") None empty_world
  = Some (Raise (HTTPError 503),
          with_sent empty_world
                    (requests_for (JStr "abc") 1761696000 1762300800 1 3)).
Proof.
  rewrite (fetch_activities_http_error
             (api_env (one_per_page_but 3)) (JStr "abc") None
             1761696000 1762300800 empty_world 2 5).
  - reflexivity.
  - reflexivity.
  - intros j Hj. assert (j = 1%nat \/ j = 2%nat) as [-> | ->] by lia; reflexivity.
  - reflexivity.
  - repeat constructor.
Defined.

(** X3.  Against an API that never answers with an error status nor with
    an empty page, the loop does not end: whatever the fuel, the fetcher has
    no result. *)
Theorem fetch_activities_never_empty (e : env) (token : json) (year_ : option Z)
    (a b : Z) (w : world) :
  fetch_window (clock_us e) year_ = Return (a, b) ->
  (forall j, (1 <= j)%nat -> goes_on (page_answer e token a b j) = true) ->
  forall fuel, fetch_activities fuel e token year_ w = None.
Proof.
  intros Hwin Hgo fuel.
  rewrite (fetch_activities_window _ _ _ _ a b _ Hwin). unfold bind.
  replace fuel with (fuel + 0)%nat by lia.
  change 1 with (Z.of_nat 1).
  rewrite fetch_pages_go_on by (intros j Hj; apply Hgo; lia).
  reflexivity.
Qed.

(** An API with one activity on every page. *)
Lemma fetch_activities_never_empty_witness :
  fetch_activities 50 (api_env (one_per_page_but 0)) (JStr "abc") None empty_world
  = None.
Proof.
  apply (fetch_activities_never_empty
           (api_env (one_per_page_but 0)) (JStr "abc") None
           1761696000 1762300800 empty_world).
  - reflexivity.
  - intros j Hj. unfold goes_on, page_answer, api_env, one_per_page_but.
    cbn [activities_endpoint page_request page].
    replace (Z.of_nat j =? 0) with false by (symmetry; apply Z.eqb_neq; lia).
    reflexivity.
Defined.

(* ================================================================= *)
(** ** Runs that stop early *)

Lemma get_access_token_refused (e : env) (w : world) :
  status_code (token_endpoint e (token_form e)) <> 200 ->
  get_access_token e w
  = Some (Raise RuntimeError,
          with_log (with_sent (with_log w [(INFO, "Fetching new access token from Strava.")])
                              [POST_token (token_form e)])
                   [(ERROR, ("Error fetching access token: "
                             ++ text (token_endpoint e (token_form e)))%string)]).
Proof.
  intro H. rewrite get_access_token_unfold. cbv zeta.
  apply Z.eqb_neq in H. now rewrite H.
Qed.

Lemma get_access_token_granted (e : env) (w : world)
    (fields : list (string * json)) (token : json) :
  status_code (token_endpoint e (token_form e)) = 200 ->
  decoded (token_endpoint e (token_form e)) = Some (JObj fields) ->
  dict_get fields "access_token" = Some token ->
  get_access_token e w
  = Some (Return token,
          with_sent (with_log w [(INFO, "Fetching new access token from Strava.")])
                    [POST_token (token_form e)]).
Proof.
  intros Hs Hd Hk. rewrite get_access_token_unfold. cbv zeta.
  now rewrite Hs, Hd, Hk.
Qed.

(** X4.  When the token endpoint answers with a status other than 200,
    the whole run stops with [RuntimeError] right after the token request:
    no page is requested, no file is written, the warehouse is neither set
    up nor merged into, and the log ends with the error message that carries
    the response body. *)
Theorem main_token_refused (fuel : nat) (e : env) (w : world) :
  status_code (token_endpoint e (token_form e)) <> 200 ->
  exists w',
    main fuel e w = Some (Raise RuntimeError, w')
    /\ sent w' = sent w ++ [POST_token (token_form e)]
    /\ cwd w' = cwd w
    /\ activities_raw w' = activities_raw w
    /\ exists first,
         log w' = log w ++ [(INFO, first);
                            (INFO, "Fetching new access token from Strava.");
                            (ERROR, ("Error fetching access token: "
                                     ++ text (token_endpoint e (token_form e)))%string)].
Proof.
  intro Hs. unfold main, parse_args. unfold bind at 1, ret at 1.
  destruct (truthy (year (argv e))).
  - unfold bind at 1. unfold download_year. unfold bind at 1, LOGGER at 1.
    unfold bind at 1. rewrite (get_access_token_refused _ _ Hs).
    eexists. split; [reflexivity |]. cbn [with_log with_sent log sent cwd activities_raw].
    repeat split. eexists. now rewrite <- !app_assoc.
  - unfold bind at 1. unfold download_last_7_days. unfold bind at 1, LOGGER at 1.
    unfold bind at 1. rewrite (get_access_token_refused _ _ Hs).
    eexists. split; [reflexivity |]. cbn [with_log with_sent log sent cwd activities_raw].
    repeat split. eexists. now rewrite <- !app_assoc.
Qed.

(** A run whose token request is answered with 401. *)
Lemma main_token_refused_witness :
  exists w',
    main 5 (sample_env {| year := Some 2024 |} token_denied (sample_records 2))
         empty_world
    = Some (Raise RuntimeError, w')
    /\ sent w' = [POST_token (token_form (sample_env {| year := Some 2024 |} token_denied
                                                     (sample_records 2)))]
    /\ cwd w' = []
    /\ activities_raw w' = None.
Proof.
  destruct (main_token_refused
              5 (sample_env {| year := Some 2024 |} token_denied (sample_records 2))
              empty_world) as (w' & Hrun & Hsent & Hcwd & Hraw & _).
  - vm_compute. discriminate.
  - exists w'. split; [exact Hrun |]. split; [exact Hsent |]. split; assumption.
Defined.

(** X5.  A 200 answer of the token endpoint whose body is not JSON, is
    not a JSON object, or is an object without [access_token] makes the token
    exchanger raise [JSONDecodeError], [TypeError] or [KeyError]; in each
    case the one token request has been sent and no error message has been
    logged. *)
Theorem get_access_token_malformed (e : env) (w : world) :
  let response := token_endpoint e (token_form e) in
  let w1 := with_sent (with_log w [(INFO, "Fetching new access token from Strava.")])
                      [POST_token (token_form e)] in
  status_code response = 200 ->
  (decoded response = None ->
     get_access_token e w = Some (Raise JSONDecodeError, w1))
  /\ (forall fields, decoded response = Some (JObj fields) ->
        dict_get fields "access_token" = None ->
        get_access_token e w = Some (Raise (KeyError "access_token"), w1))
  /\ (forall body, decoded response = Some body ->
        (forall fields, body <> JObj fields) ->
        get_access_token e w = Some (Raise TypeError, w1)).
Proof.
  intros response w1 Hs. rewrite get_access_token_unfold. fold response. cbv zeta.
  fold w1. rewrite Hs. cbn [Z.eqb Pos.eqb].
  split; [| split].
  - now intros ->.
  - intros fields -> Hk. now rewrite Hk.
  - intros body -> Hnot. destruct body; try reflexivity.
    now destruct (Hnot fields).
Qed.

(** A 200 answer with the body [{}], and one with the body [[]]. *)
Lemma get_access_token_malformed_witness :
  (exists w1,
     get_access_token
       (sample_env {| year := None |}
                   {| status_code := 200; text := "{}"; decoded := Some (JObj []) |} [])
       empty_world
     = Some (Raise (KeyError "access_token"), w1))
  /\ (exists w1,
        get_access_token
          (sample_env {| year := None |}
                      {| status_code := 200; text := "[]"; decoded := Some (JArr []) |} [])
          empty_world
        = Some (Raise TypeError, w1)).
Proof.
  split.
  - eexists.
    apply (proj1 (proj2 (get_access_token_malformed
                           (sample_env {| year := None |}
                              {| status_code := 200; text := "{}";
                                 decoded := Some (JObj []) |} [])
                           empty_world eq_refl)) []); reflexivity.
  - eexists.
    apply (proj2 (proj2 (get_access_token_malformed
                           (sample_env {| year := None |}
                              {| status_code := 200; text := "[]";
                                 decoded := Some (JArr []) |} [])
                           empty_world eq_refl)) (JArr [])); [reflexivity |].
    intros fields. discriminate.
Defined.

(* ================================================================= *)
(** ** Runs for a year *)

Lemma truthy_year (Y : Z) : Y <> 0 -> truthy (Some Y) = true.
Proof.
  intro H. cbn. apply negb_true_iff. now apply Z.eqb_neq.
Qed.

(** X6.  A run for a year Y from 1 to 9998, with the token granted and an
    API that holds finitely many records, given fuel for the pages: the
    download branch runs to its end and [main] goes on to set up and load the
    warehouse; the requests sent are the token request and then the requests
    for pages 1 to ceil(T/200) + 1 with the window [Jan 1 Y, Jan 1 Y+1); the
    file written is activities_Y.csv and holds the projection of the fetched
    table; the warehouse is not touched before the file is written. *)
Theorem main_year (fuel : nat) (e : env) (w : world) (Y : Z)
    (records : list record) (fields : list (string * json)) (token : json) :
  year (argv e) = Some Y ->
  1 <= Y <= 9998 ->
  status_code (token_endpoint e (token_form e)) = 200 ->
  decoded (token_endpoint e (token_form e)) = Some (JObj fields) ->
  dict_get fields "access_token" = Some token ->
  activities_endpoint e = serve_page records ->
  (ceil_div (List.length records) 200 + 1 <= fuel)%nat ->
  exists w1 projected,
    download_year fuel e (argv e) w = Some (Return tt, w1)
    /\ main fuel e w = (setup_duckdb ;; upsert_duckdb_activities e) w1
    /\ select_columns (DataFrame_of_records records) = Return projected
    /\ cwd w1 = write_file ("activities_" ++ string_of_Z Y ++ ".csv")%string
                           (csv_of projected) (cwd w)
    /\ sent w1 = sent w ++ POST_token (token_form e)
                          :: requests_for token (jan1_utc Y) (jan1_utc (Y + 1)) 1
                                          (ceil_div (List.length records) 200 + 1)
    /\ activities_raw w1 = activities_raw w.
Proof.
  intros Hyear HY Hs Hd Hk Hserved Hfuel.
  pose proof (select_columns_returns (DataFrame_of_records records)) as Hselect.
  set (w0 := with_log w [(INFO, ("Downloading activities for year: "
                                 ++ string_of_Z Y)%string)]).
  set (w2 := with_sent (with_log w0 [(INFO, "Fetching new access token from Strava.")])
                       [POST_token (token_form e)]).
  assert (Hdown : exists w1,
             download_year fuel e (argv e) w = Some (Return tt, w1)
             /\ cwd w1 = write_file ("activities_" ++ string_of_Z Y ++ ".csv")%string
                                    (csv_of {| index := index (DataFrame_of_records records);
                                               data := flat_map (pick (DataFrame_of_records records))
                                                                strava_columns_used |})
                                    (cwd w)
             /\ sent w1 = sent w ++ POST_token (token_form e)
                                   :: requests_for token (jan1_utc Y) (jan1_utc (Y + 1)) 1
                                                   (ceil_div (List.length records) 200 + 1)
             /\ activities_raw w1 = activities_raw w).
  { unfold download_year. rewrite Hyear. cbn [format_year].
    unfold bind at 1. unfold LOGGER at 1. fold (with_log w [(INFO, ("Downloading activities for year: " ++ string_of_Z Y)%string)]). fold w0.
    unfold bind at 1. rewrite (get_access_token_granted e w0 fields token Hs Hd Hk). fold w2.
    unfold bind at 1.
    rewrite (fetch_activities_served records e token (Some Y)
               (jan1_utc Y) (jan1_utc (Y + 1)) w2 fuel Hserved
               (year_to_unix_range_in_range Y HY) Hfuel).
    unfold bind at 1, lift. rewrite Hselect.
    unfold bind, LOGGER, to_csv. eexists. split; [reflexivity |].
    cbn [cwd sent activities_raw with_sent with_log w2 w0 log].
    repeat split. now rewrite <- app_assoc. }
  destruct Hdown as (w1 & Hrun & Hcwd & Hsent & Hraw).
  exists w1. eexists. split; [exact Hrun |].
  split; [| split; [exact Hselect | split; [exact Hcwd | split; assumption]]].
  unfold main, parse_args. unfold bind at 1, ret at 1.
  rewrite Hyear, truthy_year by lia. cbv beta iota.
  unfold bind at 1. now rewrite Hrun.
Qed.

(** The year 2024 with two activities. *)
Lemma main_year_witness :
  exists w1,
    download_year 2 (sample_env {| year := Some 2024 |} token_ok (sample_records 2))
                  {| year := Some 2024 |} empty_world
    = Some (Return tt, w1)
    /\ map fst (cwd w1) = ["activities_2024.csv"]
    /\ page_requests (sent w1)
       = [page_request (JStr "abc") 1704067200 1735689600 1;
          page_request (JStr "abc") 1704067200 1735689600 2].
Proof.
  destruct (main_year 2 (sample_env {| year := Some 2024 |} token_ok (sample_records 2))
                      empty_world 2024 (sample_records 2)
                      [("token_type", JStr "Bearer"); ("access_token", JStr "abc")]
                      (JStr "abc") eq_refl)
    as (w1 & projected & Hrun & _ & Hsel & Hcwd & Hsent & _).
  - lia.
  - reflexivity.
  - reflexivity.
  - reflexivity.
  - reflexivity.
  - vm_compute. apply le_n.
  - exists w1. split; [exact Hrun |]. split.
    + rewrite Hcwd. reflexivity.
    + rewrite Hsent. vm_compute. reflexivity.
Defined.

(** X7.  A run for a year other than 0 and outside 1..9998, with the token
    granted: the token is exchanged first, then the run stops with
    [ValueError] (or [OverflowError] for a year beyond a C int) before any
    page is requested; no file is written and the warehouse is not
    touched. *)
Theorem main_year_out_of_range (fuel : nat) (e : env) (w : world) (Y : Z)
    (fields : list (string * json)) (token : json) :
  year (argv e) = Some Y ->
  Y <> 0 -> ~ 1 <= Y <= 9998 ->
  status_code (token_endpoint e (token_form e)) = 200 ->
  decoded (token_endpoint e (token_form e)) = Some (JObj fields) ->
  dict_get fields "access_token" = Some token ->
  exists ex w',
    main fuel e w = Some (Raise ex, w')
    /\ (ex = OverflowError \/ exists msg, ex = ValueError msg)
    /\ sent w' = sent w ++ [POST_token (token_form e)]
    /\ cwd w' = cwd w
    /\ activities_raw w' = activities_raw w.
Proof.
  intros Hyear H0 HY Hs Hd Hk.
  assert (Hwin : exists ex, fetch_window (clock_us e) (Some Y) = Raise ex
                            /\ (ex = OverflowError \/ exists msg, ex = ValueError msg)).
  { cbn [fetch_window].
    destruct (Z_le_dec (- 2 ^ 31) Y) as [Hlo | Hlo];
      [destruct (Z_le_dec Y (2 ^ 31 - 1)) as [Hhi | Hhi] |].
    - destruct (year_to_unix_range_out_of_range Y (conj Hlo Hhi) HY) as [msg Hm].
      eexists. split; [exact Hm |]. right. now exists msg.
    - eexists. split; [apply year_to_unix_range_overflow; lia | now left].
    - eexists. split; [apply year_to_unix_range_overflow; lia | now left]. }
  destruct Hwin as (ex & Hwin & Hex).
  exists ex. unfold main, parse_args. unfold bind at 1, ret at 1.
  rewrite Hyear, truthy_year by assumption. cbv beta iota.
  unfold bind at 1. unfold download_year. rewrite Hyear.
  unfold bind at 1. unfold LOGGER at 1.
  unfold bind at 1. rewrite (get_access_token_granted e _ fields token Hs Hd Hk).
  unfold bind at 1. unfold fetch_activities. unfold bind at 1, lift. rewrite Hwin.
  eexists. split; [reflexivity |]. split; [exact Hex |].
  cbn [with_sent with_log sent cwd activities_raw log]. now repeat split.
Qed.

(** The year 9999. *)
Lemma main_year_out_of_range_witness :
  exists w',
    main 5 (sample_env {| year := Some 9999 |} token_ok (sample_records 2)) empty_world
    = Some (Raise (ValueError "year 10000 is out of range"), w')
    /\ page_requests (sent w') = []
    /\ cwd w' = [].
Proof.
  destruct (main_year_out_of_range
              5 (sample_env {| year := Some 9999 |} token_ok (sample_records 2))
              empty_world 9999
              [("token_type", JStr "Bearer"); ("access_token", JStr "abc")]
              (JStr "abc") eq_refl)
    as (ex & w' & Hrun & _ & Hsent & Hcwd & _).
  - discriminate.
  - lia.
  - reflexivity.
  - reflexivity.
  - reflexivity.
  - exists w'. split; [| split; [now rewrite Hsent | exact Hcwd]].
    rewrite Hrun. f_equal. f_equal.
    assert (Hc : main 5 (sample_env {| year := Some 9999 |} token_ok (sample_records 2))
                      empty_world
                 = Some (Raise (ValueError "year 10000 is out of range"),
                         with_sent (with_log empty_world
                                      [(INFO, "Downloading activities for year: 9999");
                                       (INFO, "Fetching new access token from Strava.")])
                                   [POST_token (token_form (sample_env {| year := Some 9999 |}
                                                              token_ok (sample_records 2)))]))
      by reflexivity.
    rewrite Hc in Hrun. now injection Hrun as <- _.
Defined.
